(** * Networked tic-tac-toe ([jogo.py]): board, win detection, turn protocol

    A shallow embedding of [jogo.py]: Python lists with their indexing rules,
    exceptions as an error monad, the game loop of [main] as a state
    transformer that logs its board writes and socket writes, the
    [Network] object with its inbound queue and its background receive
    task, and the fragment of the pickle wire format that [Network.send]
    emits for a move. *)

From Stdlib Require Import ZArith Bool.
From Stdlib.Strings Require Import Byte String.
From stdpp Require Import base list.

Local Open Scope Z_scope.

(** ** Python exceptions and the error monad *)

Inductive exn :=
  | IndexError
  | TypeError
  | ValueError
  | OSError
  | UnpicklingError
  | EOFError
  | SystemExit (code : Z).

Inductive res (A : Type) :=
  | Ret (a : A)
  | Raise (e : exn).
Arguments Ret {A} a.
Arguments Raise {A} e.

#[global] Instance res_ret : MRet res := @Ret.
#[global] Instance res_bind : MBind res := fun A B f m =>
  match m with
  | Ret a => f a
  | Raise e => Raise e
  end.
#[global] Instance res_fmap : FMap res := fun A B f m =>
  match m with
  | Ret a => Ret (f a)
  | Raise e => Raise e
  end.

#[global] Instance exn_eq_dec : EqDecision exn.
Proof. solve_decision. Defined.

(** ** Python lists: subscription and item assignment with negative indices *)

Module Py.

(** [l[i]] normalises a negative index by adding [len(l)] once and raises
    [IndexError] outside [0, len(l))]. *)
Definition norm_index {A} (l : list A) (i : Z) : res nat :=
  let n := Z.of_nat (length l) in
  let j := if i <? 0 then i + n else i in
  if (j <? 0) || (n <=? j) then Raise IndexError else Ret (Z.to_nat j).

Definition getitem {A} (l : list A) (i : Z) : res A :=
  j ← norm_index l i;
  match l !! j with
  | Some a => Ret a
  | None => Raise IndexError
  end.

Definition setitem {A} (l : list A) (i : Z) (v : A) : res (list A) :=
  j ← norm_index l i;
  Ret (<[j := v]> l).

(** [l.count(x)] *)
Fixpoint count `{EqDecision A} (x : A) (l : list A) : Z :=
  match l with
  | [] => 0
  | y :: l' => (if decide (y = x) then 1 else 0) + count x l'
  end.

(** [range(3)] *)
Definition range3 : list Z := [0; 1; 2].

End Py.

(** ** Board and outcome *)

Definition WIDTH : Z := 600.
Definition HEIGHT : Z := 600.

(** The two marks ['X'] and ['O']; a cell holds [None] or a mark. *)
Inductive symbol := MarkX | MarkO.
Abbreviation cell := (option symbol) (only parsing).
Abbreviation Board := (list (list cell)) (only parsing).

(** The values of [winner]: [None], a mark, or ['Draw']. *)
Inductive outcome := Won (m : symbol) | Draw.
Abbreviation Winner := (option outcome) (only parsing).

#[global] Instance symbol_eq_dec : EqDecision symbol.
Proof. solve_decision. Defined.
#[global] Instance outcome_eq_dec : EqDecision outcome.
Proof. solve_decision. Defined.

(** Truth value of a cell: [None] is falsy, the one-letter strings truthy. *)
Definition cell_truthy (c : cell) : bool :=
  match c with
  | Some _ => true
  | None => false
  end.

(** [board[r][c]] *)
Definition board_get (board : Board) (r c : Z) : res cell :=
  row ← Py.getitem board r;
  Py.getitem row c.

(** [board[r][c] = v]; the rows of the board are distinct list objects
    ([[None]*3 for _ in range(3)]), so writing one row leaves the others. *)
Definition board_set (board : Board) (r c : Z) (v : cell) : res Board :=
  row ← Py.getitem board r;
  row' ← Py.setitem row c v;
  Py.setitem board r row'.

(** The condition of the [if] inside the [for line in lines] loop:
    [line[0] and line.count(line[0]) == 3]. *)
Definition line_test (line : list cell) : res bool :=
  c ← Py.getitem line 0;
  Ret (cell_truthy c && (Py.count c line =? 3)).

(** The [for line in lines] loop: [Some c] when [return line[0]] is taken
    with [line[0] = c], [None] when the loop runs to its end. *)
Fixpoint scan_lines (lines : list (list cell)) : res (option cell) :=
  match lines with
  | [] => Ret None
  | line :: rest =>
      line_test line ≫= fun hit : bool =>
      if hit then Some <$> Py.getitem line 0 else scan_lines rest
  end.

Definition board_full (board : Board) : bool :=
  forallb (forallb cell_truthy) board.

Definition build_lines (board : Board) : res (list (list cell)) :=
  cols ← mapM (fun c => mapM (fun r => board_get board r c) Py.range3) Py.range3;
  diag1 ← mapM (fun i => board_get board i i) Py.range3;
  diag2 ← mapM (fun i => board_get board i (2 - i)) Py.range3;
  Ret (board ++ cols ++ [diag1; diag2]).

Definition check_winner (board : Board) : res Winner :=
  lines ← build_lines board;
  scan_lines lines ≫= fun w : option cell =>
  match w with
  | Some c => Ret (option_map Won c)
  | None => if board_full board then Ret (Some Draw) else Ret None
  end.

(** ** The wire format: pickle protocol 4 for a pair of ints

    [Network.send] hands [pickle.dumps((row, col))] to [sendall] and
    [_receive_loop] hands what [recv] returned to [pickle.loads].  The pickle
    module belongs to the Python runtime; the fragment below follows its
    protocol description for the values this program exchanges: [None],
    ints and tuples, at the default protocol 4. *)

(** The objects of this fragment: [None], ints and tuples.  Other objects
    a pickle can hold (bools, slices, lists, strings, instances) are
    outside it, and [Pickle.loads] below raises on their opcodes. *)
#[local] Set Warnings "-register-all".
Inductive pyobj :=
  | PyNone
  | PyInt (z : Z)
  | PyTuple (items : list pyobj).

Module Pickle.

Definition PROTO : byte := x80.
Definition FRAME : byte := x95.
Definition BININT : byte := x4a.
Definition BININT1 : byte := x4b.
Definition BININT2 : byte := x4d.
Definition LONG1 : byte := x8a.
Definition LONG4 : byte := x8b.
Definition NONE : byte := x4e.
Definition EMPTY_TUPLE : byte := x29.
Definition TUPLE1 : byte := x85.
Definition TUPLE2 : byte := x86.
Definition TUPLE3 : byte := x87.
Definition BINPUT : byte := x71.
Definition MEMOIZE : byte := x94.
Definition STOP : byte := x2e.

Definition HIGHEST_PROTOCOL : Z := 5.
Definition DEFAULT_PROTOCOL : byte := x04.

Definition byte_of_Z (z : Z) : byte :=
  default x00 (Byte.of_N (Z.to_N (z mod 256))).
Definition Z_of_byte (b : byte) : Z := Z.of_N (Byte.to_N b).

(** [n] bytes of [z], little endian, two's complement for negative [z]. *)
Fixpoint pack_le (n : nat) (z : Z) : list byte :=
  match n with
  | O => []
  | S n' => byte_of_Z z :: pack_le n' (z / 256)
  end.

Fixpoint unpack_le (bs : list byte) : Z :=
  match bs with
  | [] => 0
  | b :: bs' => Z_of_byte b + 256 * unpack_le bs'
  end.

Definition unpack_le_signed (bs : list byte) : Z :=
  let u := unpack_le bs in
  let w := 8 * Z.of_nat (length bs) in
  if (w =? 0) || (u <? 2 ^ (w - 1)) then u else u - 2 ^ w.

(** The shortest two's complement encoding, for ints outside 32 bits. *)
Definition encode_long (v : Z) : list byte :=
  if v =? 0 then [] else
  let nbits := Z.log2 (Z.abs v) + 1 in
  let nbytes := Z.to_nat (nbits / 8 + 1) in
  let bs := pack_le nbytes v in
  match reverse bs with
  | hi :: hi' :: _ =>
      if (v <? 0) && (Z_of_byte hi =? 255) && (128 <=? Z_of_byte hi')
      then take (nbytes - 1) bs else bs
  | _ => bs
  end.

Definition save_long (v : Z) : list byte :=
  if (- 2 ^ 31 <=? v) && (v <=? 2 ^ 31 - 1) then
    if (v <? 0) || (65535 <? v) then BININT :: pack_le 4 v
    else if 255 <? v then BININT2 :: pack_le 2 v
    else BININT1 :: pack_le 1 v
  else
    let enc := encode_long v in
    let n := Z.of_nat (length enc) in
    if n <? 256 then LONG1 :: byte_of_Z n :: enc
    else LONG4 :: pack_le 4 n ++ enc.

(** [pickle.dumps((r, c))]: protocol header, one frame holding the two
    ints, [TUPLE2], the memo entry of the tuple and [STOP]. *)
Definition dumps (data : Z * Z) : list byte :=
  let body := save_long data.1 ++ save_long data.2 ++ [TUPLE2; MEMOIZE; STOP] in
  PROTO :: DEFAULT_PROTOCOL :: FRAME :: pack_le 8 (Z.of_nat (length body)) ++ body.

(** Read [n] operand bytes. *)
Definition read (n : nat) (bs : list byte) : res (list byte * list byte) :=
  if (n <=? length bs)%nat then Ret (take n bs, drop n bs)
  else Raise UnpicklingError.

(** One opcode of the unpickling machine: the rest of the input and the
    new stack (top first), or the finished object at [STOP].  The memo is
    write-only in this fragment (no [GET] opcode), so it is not kept.
    Opcodes that build values outside [pyobj] are rejected. *)
Definition load_op (op : byte) (bs : list byte) (stack : list pyobj)
  : res (list byte * list pyobj + pyobj) :=
  match op with
  | x80 =>
      '(v, bs') ← read 1 bs;
      if unpack_le v <=? HIGHEST_PROTOCOL then Ret (inl (bs', stack))
      else Raise ValueError
  | x95 =>
      '(n, bs') ← read 8 bs;
      if unpack_le n <=? Z.of_nat (length bs') then Ret (inl (bs', stack))
      else Raise UnpicklingError
  | x4a => '(v, bs') ← read 4 bs; Ret (inl (bs', PyInt (unpack_le_signed v) :: stack))
  | x4b => '(v, bs') ← read 1 bs; Ret (inl (bs', PyInt (unpack_le v) :: stack))
  | x4d => '(v, bs') ← read 2 bs; Ret (inl (bs', PyInt (unpack_le v) :: stack))
  | x8a =>
      '(n, bs') ← read 1 bs;
      '(v, bs'') ← read (Z.to_nat (unpack_le n)) bs';
      Ret (inl (bs'', PyInt (unpack_le_signed v) :: stack))
  | x8b =>
      '(n, bs') ← read 4 bs;
      if unpack_le_signed n <? 0 then Raise UnpicklingError else
      '(v, bs'') ← read (Z.to_nat (unpack_le_signed n)) bs';
      Ret (inl (bs'', PyInt (unpack_le_signed v) :: stack))
  | x4e => Ret (inl (bs, PyNone :: stack))
  | x29 => Ret (inl (bs, PyTuple [] :: stack))
  | x85 =>
      match stack with
      | a :: st => Ret (inl (bs, PyTuple [a] :: st))
      | _ => Raise UnpicklingError
      end
  | x86 =>
      match stack with
      | b :: a :: st => Ret (inl (bs, PyTuple [a; b] :: st))
      | _ => Raise UnpicklingError
      end
  | x87 =>
      match stack with
      | c :: b :: a :: st => Ret (inl (bs, PyTuple [a; b; c] :: st))
      | _ => Raise UnpicklingError
      end
  | x71 =>
      '(_, bs') ← read 1 bs;
      match stack with
      | _ :: _ => Ret (inl (bs', stack))
      | [] => Raise UnpicklingError
      end
  | x94 =>
      match stack with
      | _ :: _ => Ret (inl (bs, stack))
      | [] => Raise UnpicklingError
      end
  | x2e =>
      match stack with
      | v :: _ => Ret (inr v)
      | [] => Raise UnpicklingError
      end
  | _ => Raise UnpicklingError
  end.

(** The opcode loop; every opcode consumes its own byte, so [fuel] equal
    to the length of the input never runs out before the input does. *)
Fixpoint load (fuel : nat) (bs : list byte) (stack : list pyobj) : res pyobj :=
  match fuel, bs with
  | S fuel', op :: bs' =>
      load_op op bs' stack ≫= fun r : list byte * list pyobj + pyobj =>
      match r with
      | inl (bs'', stack') => load fuel' bs'' stack'
      | inr v => Ret v
      end
  | _, _ => Raise EOFError
  end.

(** [pickle.loads(packet)] *)
Definition loads (packet : list byte) : res pyobj :=
  load (length packet) packet [].

End Pickle.

(** ** The [Network] object *)

Definition BUFFER_SIZE : Z := 4096.

(** [conn_up] is the state of the connected socket as [sendall] sees it;
    [queue] is [self.queue], oldest item first. *)
Record Network := mkNetwork {
  is_server : bool;
  conn_up : bool;
  queue : list pyobj;
}.

(** [sendall]: raises [socket.error] on a broken connection. *)
Definition sendall (net : Network) (packet : list byte) : res (list byte) :=
  if conn_up net then Ret packet else Raise OSError.

(** [Network.send]: the bytes written to the socket; a socket error is
    caught, reported, and turned into [sys.exit(1)]. *)
Definition send (net : Network) (data : Z * Z) : res (list byte) :=
  let packet := Pickle.dumps data in
  match sendall net packet with
  | Ret written => Ret written
  | Raise OSError => Raise (SystemExit 1)
  | Raise e => Raise e
  end.

(** [Network.receive]: the next queued item, or [None] when the queue is
    still empty at the timeout. *)
Definition receive (net : Network) : pyobj * Network :=
  match queue net with
  | [] => (PyNone, net)
  | d :: q => (d, mkNetwork (is_server net) (conn_up net) q)
  end.

(** [except Exception] does not catch [SystemExit]. *)
Definition is_Exception (e : exn) : bool :=
  match e with
  | SystemExit _ => false
  | _ => true
  end.

(** One iteration of the [while True] loop of [_receive_loop], given what
    [recv] returned (at most [BUFFER_SIZE] bytes) or raised: the queue
    afterwards, and [None] to go round again or [Some e] when the loop is
    left and the function ends by raising [e]. *)
Definition receive_iter (r : res (list byte)) (q : list pyobj)
  : list pyobj * option exn :=
  match r with
  | Raise e => if is_Exception e then (q, Some (SystemExit 1)) else (q, Some e)
  | Ret [] => (q, Some (SystemExit 1))
  | Ret packet =>
      match Pickle.loads packet with
      | Ret data => (q ++ [data], None)
      | Raise e => if is_Exception e then (q, Some (SystemExit 1)) else (q, Some e)
      end
  end.

(** [_receive_loop] over the successive results of [recv]: the queue it
    leaves, and how it ended ([None]: still blocked in [recv]). *)
Fixpoint receive_loop (recvs : list (res (list byte))) (q : list pyobj)
  : list pyobj * option exn :=
  match recvs with
  | [] => (q, None)
  | r :: recvs' =>
      match receive_iter r q with
      | (q', None) => receive_loop recvs' q'
      | (q', Some e) => (q', Some e)
      end
  end.

(** ** The game loop of [main] *)

(** The locals of [main] that the loop reads and writes. *)
Record game := mkGame {
  board : Board;
  winner : Winner;
  is_my_turn : bool;
  mark : symbol;
  running : bool;
}.

(** Input events as [pygame.event.get()] delivers them; a mouse press
    carries the position [pygame.mouse.get_pos()] reports for it. *)
Inductive event :=
  | QUIT
  | MOUSEBUTTONDOWN (x y : Z)
  | OTHER.

#[global] Instance event_eq_dec : EqDecision event.
Proof. solve_decision. Defined.

(** What an iteration does to the board and the socket, in order. *)
Inductive effect :=
  | BoardWrite (r c : Z) (m : symbol)
  | SockWrite (packet : list byte).

Definition is_None {A} (o : option A) : bool :=
  match o with
  | None => true
  | Some _ => false
  end.

(** State of [main] before the loop, for [args.server = server]. *)
Definition init_game (server : bool) : game :=
  {| board := replicate 3 (replicate 3 None);
     winner := None;
     is_my_turn := server;
     mark := if server then MarkX else MarkO;
     running := true |}.

(** [row, col = y // (HEIGHT//3), x // (WIDTH//3)] *)
Definition click_cell (x y : Z) : Z * Z :=
  (y / (HEIGHT / 3), x / (WIDTH / 3)).

(** The body of [for event in pygame.event.get()]. *)
Definition on_event (net : Network) (g : game) (ev : event)
  : res (game * list effect) :=
  let g :=
    match ev with
    | QUIT => mkGame (board g) (winner g) (is_my_turn g) (mark g) false
    | _ => g
    end in
  match ev with
  | MOUSEBUTTONDOWN x y =>
      if is_my_turn g && is_None (winner g) then
        if y <? HEIGHT then
          let '(row, col) := click_cell x y in
          board_get (board g) row col ≫= fun c : cell =>
          if is_None c then
            board' ← board_set (board g) row col (Some (mark g));
            packet ← send net (row, col);
            w ← check_winner board';
            Ret (mkGame board' w false (mark g) (running g),
                 [BoardWrite row col (mark g); SockWrite packet])
          else Ret (g, [])
        else Ret (g, [])
      else Ret (g, [])
  | _ => Ret (g, [])
  end.

Fixpoint on_events (net : Network) (g : game) (evs : list event)
  : res (game * list effect) :=
  match evs with
  | [] => Ret (g, [])
  | ev :: evs' =>
      '(g1, log1) ← on_event net g ev;
      '(g2, log2) ← on_events net g1 evs';
      Ret (g2, log1 ++ log2)
  end.

(** Truth value of a received object. *)
Definition py_truthy (d : pyobj) : bool :=
  match d with
  | PyNone => false
  | PyInt z => negb (z =? 0)
  | PyTuple items => negb (is_None (head items))
  end.

(** [r, c = data] *)
Definition unpack2 (d : pyobj) : res (pyobj * pyobj) :=
  match d with
  | PyTuple [r; c] => Ret (r, c)
  | PyTuple _ => Raise ValueError
  | _ => Raise TypeError
  end.

(** A list subscript must be an int. *)
Definition py_index (o : pyobj) : res Z :=
  match o with
  | PyInt z => Ret z
  | _ => Raise TypeError
  end.

(** ['X' if mark == 'O' else 'O'] *)
Definition other_mark (m : symbol) : symbol :=
  match m with
  | MarkO => MarkX
  | MarkX => MarkO
  end.

(** The [if data and not is_my_turn and winner is None] block. *)
Definition on_data (g : game) (data : pyobj) : res (game * list effect) :=
  if py_truthy data && negb (is_my_turn g) && is_None (winner g) then
    '(r, c) ← unpack2 data;
    let v := other_mark (mark g) in
    ri ← py_index r;
    row ← Py.getitem (board g) ri;
    ci ← py_index c;
    row' ← Py.setitem row ci (Some v);
    board' ← Py.setitem (board g) ri row';
    w ← check_winner board';
    Ret (mkGame board' w true (mark g) (running g), [BoardWrite ri ci v])
  else Ret (g, []).

(** One iteration of [while running]; drawing reads the state and is left
    out. *)
Definition tick (evs : list event) (net : Network) (g : game)
  : res (game * Network * list effect) :=
  '(g1, log1) ← on_events net g evs;
  let '(data, net') := receive net in
  '(g2, log2) ← on_data g1 data;
  Ret (g2, net', log1 ++ log2).

(** ** The process: main thread, worker thread and the socket

    The main thread runs the game loop; the single worker of the
    [ThreadPoolExecutor] runs [_receive_loop].  The two share [net.queue]
    and nothing else.  An exception that ends the submitted task,
    [SystemExit] included, is raised in the worker thread and kept in the
    task's future, which [main] never reads. *)
Record world := mkWorld {
  locals : game;
  net : Network;
  main_thread : option exn;
  worker : option exn;
  trace : list effect;
}.

Inductive action :=
  | Tick (evs : list event)
  | Recv (r : res (list byte))
  | ConnReset.

Definition init_world (server : bool) : world :=
  {| locals := init_game server;
     net := mkNetwork server true [];
     main_thread := None;
     worker := None;
     trace := [] |}.

(** One step of the process.  When an iteration of the loop raises, the
    main thread is recorded as ended by that exception and the other
    fields are left as they were before the iteration: they do not show
    what the iteration did before it raised (a mark written before a
    failing [send], an item taken from the queue). *)
Definition step (a : action) (w : world) : world :=
  match a with
  | Tick evs =>
      match main_thread w with
      | Some _ => w
      | None =>
          if running (locals w) then
            match tick evs (net w) (locals w) with
            | Ret (g, n, log) =>
                mkWorld g n None (worker w) (trace w ++ log)
            | Raise e =>
                mkWorld (locals w) (net w) (Some e) (worker w) (trace w)
            end
          else w
      end
  | Recv r =>
      match worker w with
      | Some _ => w
      | None =>
          let '(q, ended) := receive_iter r (queue (net w)) in
          mkWorld (locals w)
                  (mkNetwork (is_server (net w)) (conn_up (net w)) q)
                  (main_thread w) ended (trace w)
      end
  | ConnReset =>
      mkWorld (locals w)
              (mkNetwork (is_server (net w)) false (queue (net w)))
              (main_thread w) (worker w) (trace w)
  end.

Definition run (acts : list action) (w : world) : world :=
  foldl (fun w a => step a w) w acts.

(** The phase of the orchestrator as the status line shows it. *)
Inductive phase := MyTurn | OpponentTurn | GameOver.

Definition phase_of (g : game) : phase :=
  match winner g with
  | Some _ => GameOver
  | None => if is_my_turn g then MyTurn else OpponentTurn
  end.

(** The mark that moves next. *)
Definition turn_owner (g : game) : symbol :=
  if is_my_turn g then mark g else other_mark (mark g).

(** ** Win detection against its description *)

Definition is_3x3 (b : Board) : Prop :=
  length b = 3%nat /\ Forall (fun row => length row = 3%nat) b.

(** The description of the outcome, in the words of the specification: a
    line is a win for mark [m] if all three cells equal [m]; the lines are
    the 3 rows, the 3 columns and the 2 diagonals, in that order. *)
Definition line_won_by (m : symbol) (line : list cell) : Prop :=
  line = [Some m; Some m; Some m].

Definition line_won (line : list cell) : Prop :=
  exists m, line_won_by m line.

Definition cell_at (b : Board) (r c : nat) : cell :=
  default None (b !! r ≫= fun row : list cell => row !! c).

Definition spec_lines (b : Board) : list (list cell) :=
  [ [cell_at b 0 0; cell_at b 0 1; cell_at b 0 2];
    [cell_at b 1 0; cell_at b 1 1; cell_at b 1 2];
    [cell_at b 2 0; cell_at b 2 1; cell_at b 2 2];
    [cell_at b 0 0; cell_at b 1 0; cell_at b 2 0];
    [cell_at b 0 1; cell_at b 1 1; cell_at b 2 1];
    [cell_at b 0 2; cell_at b 1 2; cell_at b 2 2];
    [cell_at b 0 0; cell_at b 1 1; cell_at b 2 2];
    [cell_at b 0 2; cell_at b 1 1; cell_at b 2 0] ]%nat.

(** The first line, in the order of [lines], that some mark has completed
    is completed by [m]. *)
Definition first_won_by (lines : list (list cell)) (m : symbol) : Prop :=
  exists (i : nat) (l : list cell),
    lines !! i = Some l /\ line_won_by m l /\
    forall (j : nat) (l' : list cell),
      lines !! j = Some l' -> (j < i)%nat -> ~ line_won l'.

Definition no_line_won (b : Board) : Prop :=
  Forall (fun l => ~ line_won l) (spec_lines b).

Definition all_filled (b : Board) : Prop :=
  forall r c : nat, (r < 3)%nat -> (c < 3)%nat -> cell_at b r c <> None.

#[global] Instance line_won_dec (line : list cell) : Decision (line_won line).
Proof.
  destruct (decide (line = [Some MarkX; Some MarkX; Some MarkX])) as [HX|HX].
  { left. exists MarkX. exact HX. }
  destruct (decide (line = [Some MarkO; Some MarkO; Some MarkO])) as [HO|HO].
  { left. exists MarkO. exact HO. }
  right. intros [[] Hm]; unfold line_won_by in Hm; contradiction.
Defined.

(** The mark found by the search for the first won line. *)
Definition found_mark (hit : option (nat * list cell)) : option cell :=
  (fun p : nat * list cell => default None (head p.2)) <$> hit.

(** ** Turn bookkeeping *)

Definition written_marks (log : list effect) : list symbol :=
  omap (fun e => match e with
                 | BoardWrite _ _ m => Some m
                 | SockWrite _ => None
                 end) log.

(** [n] marks in turn, starting with [m]. *)
Fixpoint alternate (m : symbol) (n : nat) : list symbol :=
  match n with
  | 0%nat => []
  | S n' => m :: alternate (other_mark m) n'
  end.

(** From [g] the moves in [log] lead to [g']: the marks placed are those of
    the successive turn owners, and every placed mark hands the turn to
    the other side. *)
Definition turns_taken (g : game) (log : list effect) (g' : game) : Prop :=
  let k := length (written_marks log) in
  mark g' = mark g
  /\ written_marks log = alternate (turn_owner g) k
  /\ turn_owner g' = Nat.iter k other_mark (turn_owner g)
  /\ is_my_turn g' = Nat.iter k negb (is_my_turn g).

(** ** Sample runs *)


(** The joiner after the host's move at [(0, 0)] and its own at [(1, 1)]. *)
Definition joiner_moved : world :=
  run [Recv (Ret (Pickle.dumps (0, 0))); Tick [];
       Tick [MOUSEBUTTONDOWN 300 300]]
      (init_world false).

(** ** Two processes on one connection

    The program is run twice, once with [--server] and once without, and
    the two sockets are the two ends of one TCP connection: what one side
    writes with [sendall] the other side's [recv] returns, in order.  Each
    [recv] is taken to return one whole packet. *)

(** Mouse positions inside the window of [set_mode((WIDTH, HEIGHT + 50))]. *)
Definition in_window (ev : event) : bool :=
  match ev with
  | MOUSEBUTTONDOWN x y =>
      (0 <=? x) && (x <? WIDTH) && (0 <=? y) && (y <? HEIGHT + 50)
  | _ => true
  end.

Definition sent_packets (log : list effect) : list (list byte) :=
  omap (fun e => match e with
                 | SockWrite p => Some p
                 | BoardWrite _ _ _ => None
                 end) log.

(** What [w'] has logged beyond [w]. *)
Definition new_trace (w w' : world) : list effect :=
  drop (length (trace w)) (trace w').

Record duo := mkDuo {
  host : world;
  joiner : world;
  to_joiner : list (list byte);
  to_host : list (list byte);
}.

Inductive side := Host | Joiner.

Inductive duo_action :=
  | Loop (s : side) (evs : list event)
  | Deliver (s : side).

Definition duo_init : duo :=
  mkDuo (init_world true) (init_world false) [] [].

Definition duo_step (a : duo_action) (d : duo) : duo :=
  match a with
  | Loop Host evs =>
      let h := step (Tick evs) (host d) in
      mkDuo h (joiner d)
            (to_joiner d ++ sent_packets (new_trace (host d) h)) (to_host d)
  | Loop Joiner evs =>
      let j := step (Tick evs) (joiner d) in
      mkDuo (host d) j
            (to_joiner d) (to_host d ++ sent_packets (new_trace (joiner d) j))
  | Deliver Host =>
      match to_host d with
      | [] => d
      | p :: rest =>
          mkDuo (step (Recv (Ret p)) (host d)) (joiner d) (to_joiner d) rest
      end
  | Deliver Joiner =>
      match to_joiner d with
      | [] => d
      | p :: rest =>
          mkDuo (host d) (step (Recv (Ret p)) (joiner d)) rest (to_host d)
      end
  end.

Definition duo_run (acts : list duo_action) (d : duo) : duo :=
  foldl (fun d a => duo_step a d) d acts.

Definition honest (a : duo_action) : bool :=
  match a with
  | Loop _ evs => forallb in_window evs
  | Deliver _ => true
  end.

(** A process whose two threads are running on a live connection, with
    the mark of its role, a 3x3 board and [winner] equal to what
    [check_winner] says of the board. *)
Definition healthy (server : bool) (w : world) : Prop :=
  main_thread w = None /\ worker w = None /\ conn_up (net w) = true
  /\ mark (locals w) = (if server then MarkX else MarkO)
  /\ is_3x3 (board (locals w))
  /\ check_winner (board (locals w)) = Ret (winner (locals w)).

(** The move [(r, c)] made by [a] is on its way to [b]: on the wire, or
    already in [b]'s queue. *)
Definition awaiting (a b : world) (wire : list (list byte)) (r c : Z) : Prop :=
  0 <= r <= 2 /\ 0 <= c <= 2
  /\ is_my_turn (locals a) = false /\ is_my_turn (locals b) = false
  /\ winner (locals b) = None
  /\ board_get (board (locals b)) r c = Ret None
  /\ board_set (board (locals b)) r c (Some (mark (locals a)))
     = Ret (board (locals a))
  /\ queue (net a) = []
  /\ ((wire = [Pickle.dumps (r, c)] /\ queue (net b) = [])
      \/ (wire = [] /\ queue (net b) = [PyTuple [PyInt r; PyInt c]])).

(** Nothing is on its way and both sides show the same game. *)
Definition settled (a b : world) (ab ba : list (list byte)) : Prop :=
  ab = [] /\ ba = [] /\ queue (net a) = [] /\ queue (net b) = []
  /\ board (locals a) = board (locals b)
  /\ winner (locals a) = winner (locals b)
  /\ is_my_turn (locals b) = negb (is_my_turn (locals a)).

Definition link (sa : bool) (a b : world) (ab ba : list (list byte)) : Prop :=
  healthy sa a /\ healthy (negb sa) b
  /\ (settled a b ab ba
      \/ (ba = [] /\ exists r c, awaiting a b ab r c)
      \/ (ab = [] /\ exists r c, awaiting b a ba r c)).

Definition in_sync (d : duo) : Prop :=
  link true (host d) (joiner d) (to_joiner d) (to_host d).

(** The fields the loop's decisions depend on are the same in [g'] as in
    [g]; [running] may differ. *)
Definition frozen (g g' : game) : Prop :=
  board g' = board g /\ winner g' = winner g
  /\ is_my_turn g' = is_my_turn g /\ mark g' = mark g.

(** [g'] is [g] after one local move, logged in [log]. *)
Definition local_move (g g' : game) (log : list effect) : Prop :=
  exists r c,
    0 <= r <= 2 /\ 0 <= c <= 2
    /\ is_my_turn g = true /\ winner g = None
    /\ board_get (board g) r c = Ret None
    /\ board_set (board g) r c (Some (mark g)) = Ret (board g')
    /\ check_winner (board g') = Ret (winner g')
    /\ is_my_turn g' = false /\ mark g' = mark g
    /\ log = [BoardWrite r c (mark g); SockWrite (Pickle.dumps (r, c))].

(** The packets a process owes the peer for the marks of its own that
    [log] shows on its board. *)
Definition owed_packets (own : symbol) (log : list effect) : list (list byte) :=
  omap (fun e => match e with
                 | BoardWrite r c m =>
                     if decide (m = own) then Some (Pickle.dumps (r, c)) else None
                 | SockWrite _ => None
                 end) log.

(** The object a pickled move unpickles to. *)
Definition move_obj (m : Z * Z) : pyobj := PyTuple [PyInt m.1; PyInt m.2].

(** ** Drawing

    The pygame calls of [draw_lines], [draw_marks] and [draw_game_status]
    as the list of shapes they put on the screen, in order. *)

Definition LINE_COLOR : Z * Z * Z := (23, 145, 135).
Definition BG_COLOR : Z * Z * Z := (28, 170, 156).
Definition CROSS_COLOR : Z * Z * Z := (66, 66, 66).
Definition CIRCLE_COLOR : Z * Z * Z := (239, 231, 200).
Definition LINE_WIDTH : Z := 15.
Definition CIRCLE_RADIUS : Z := 60.
Definition CIRCLE_WIDTH : Z := 15.
Definition CROSS_WIDTH : Z := 25.
Definition SPACE : Z := 55.

Inductive shape :=
  | Fill (color : Z * Z * Z)
  | Line (color : Z * Z * Z) (start stop : Z * Z) (width : Z)
  | Circle (color : Z * Z * Z) (center : Z * Z) (radius width : Z)
  | Rect (color : Z * Z * Z) (rect : Z * Z * Z * Z)
  | Blit (text : string) (color : Z * Z * Z) (pos : Z * Z).

Definition draw_lines : list shape :=
  [ Line LINE_COLOR (0, HEIGHT / 3) (WIDTH, HEIGHT / 3) LINE_WIDTH;
    Line LINE_COLOR (0, 2 * HEIGHT / 3) (WIDTH, 2 * HEIGHT / 3) LINE_WIDTH;
    Line LINE_COLOR (WIDTH / 3, 0) (WIDTH / 3, HEIGHT) LINE_WIDTH;
    Line LINE_COLOR (2 * WIDTH / 3, 0) (2 * WIDTH / 3, HEIGHT) LINE_WIDTH ].

(** The body of the inner loop of [draw_marks] for one cell. *)
Definition draw_mark (row col : Z) (m : cell) : list shape :=
  match m with
  | Some MarkO =>
      [ Circle CIRCLE_COLOR
               (col * WIDTH / 3 + WIDTH / 6, row * HEIGHT / 3 + HEIGHT / 6)
               CIRCLE_RADIUS CIRCLE_WIDTH ]
  | Some MarkX =>
      [ Line CROSS_COLOR
             (col * WIDTH / 3 + SPACE, row * HEIGHT / 3 + SPACE)
             (col * WIDTH / 3 + WIDTH / 3 - SPACE, row * HEIGHT / 3 + HEIGHT / 3 - SPACE)
             CROSS_WIDTH;
        Line CROSS_COLOR
             (col * WIDTH / 3 + SPACE, row * HEIGHT / 3 + HEIGHT / 3 - SPACE)
             (col * WIDTH / 3 + WIDTH / 3 - SPACE, row * HEIGHT / 3 + SPACE)
             CROSS_WIDTH ]
  | None => []
  end.

Definition draw_marks (board : Board) : res (list shape) :=
  rows ← mapM (fun row =>
                 cells ← mapM (fun col =>
                                 m ← board_get board row col;
                                 Ret (draw_mark row col m)) Py.range3;
                 Ret (concat cells)) Py.range3;
  Ret (concat rows).

Definition mark_str (m : symbol) : string :=
  match m with
  | MarkX => "X"
  | MarkO => "O"
  end.

(** The text [draw_game_status] renders. *)
Definition status_text (is_my_turn : bool) (winner : Winner) (mark : symbol) : string :=
  match winner with
  | Some Draw => "Game ended in a Draw!"
  | Some (Won m) => if decide (m = mark) then "You Won!" else "You Lost!"
  | None =>
      if is_my_turn
      then String.append "Your turn (You are " (String.append (mark_str mark) ")")
      else "Waiting for opponent..."
  end.

Section Drawing.

(** [text.get_width()] of the rendered text, a matter of the font. *)
Variable text_width : string -> Z.

Definition draw_game_status (is_my_turn : bool) (winner : Winner) (mark : symbol)
  : list shape :=
  let text := status_text is_my_turn winner mark in
  [ Rect BG_COLOR (0, HEIGHT + 10, WIDTH, 50);
    Blit text (255, 255, 255) (WIDTH / 2 - text_width text / 2, HEIGHT + 25) ].

(** The drawing at the end of an iteration of the game loop. *)
Definition render (g : game) : res (list shape) :=
  marks ← draw_marks (board g);
  Ret (Fill BG_COLOR :: draw_lines ++ marks
       ++ draw_game_status (is_my_turn g) (winner g) (mark g)).

End Drawing.

(** The corners [(x0, y0, x1, y1)] of the smallest upright box around a
    shape, stroke width included; [None] for what has no box of its own. *)
Definition extent (s : shape) : option (Z * Z * Z * Z) :=
  match s with
  | Line _ (x1, y1) (x2, y2) w =>
      Some (Z.min x1 x2 - w, Z.min y1 y2 - w, Z.max x1 x2 + w, Z.max y1 y2 + w)
  | Circle _ (x, y) r _ => Some (x - r, y - r, x + r, y + r)
  | Rect _ (x, y, w, h) => Some (x, y, x + w, y + h)
  | Fill _ => None
  | Blit _ _ _ => None
  end.

(** [s] stays inside the square of cell [(row, col)] of the grid. *)
Definition inside_cell (row col : Z) (s : shape) : Prop :=
  match extent s with
  | Some (x0, y0, x1, y1) =>
      col * (WIDTH / 3) <= x0 /\ x1 <= (col + 1) * (WIDTH / 3)
      /\ row * (HEIGHT / 3) <= y0 /\ y1 <= (row + 1) * (HEIGHT / 3)
  | None => False
  end.

(** Exchange the two marks on the whole board. *)
Definition swap_marks (b : Board) : Board :=
  map (map (option_map other_mark)) b.

Definition swap_outcome (o : outcome) : outcome :=
  match o with
  | Won m => Won (other_mark m)
  | Draw => Draw
  end.

(** The nine cells in the order [draw_marks] visits them. *)
Definition cells9 : list (nat * nat) :=
  [(0, 0); (0, 1); (0, 2); (1, 0); (1, 1); (1, 2); (2, 0); (2, 1); (2, 2)]%nat.

(** The number of empty cells of a board. *)
Definition empties (b : Board) : nat :=
  length (filter (fun c : cell => c = None) (concat b)).

(** ** The inputs of a process whose peer runs this program

    The events of one iteration of the loop; a read of the socket that
    returns exactly the bytes [send] writes for a pair of ints; a read
    that returns no bytes (the peer closed the stream); a read that
    fails; the loss of the connection. *)
Inductive feed :=
  | Events (evs : list event)
  | Packet (m : Z * Z)
  | PeerClosed
  | RecvFailed
  | LinkDown.

Definition feed_action (f : feed) : action :=
  match f with
  | Events evs => Tick evs
  | Packet m => Recv (Ret (Pickle.dumps m))
  | PeerClosed => Recv (Ret [])
  | RecvFailed => Recv (Raise OSError)
  | LinkDown => ConnReset
  end.

(** The ints that [pickle] writes with the [BININT] opcodes. *)
Definition int32 (z : Z) : bool := (- 2 ^ 31 <=? z) && (z <=? 2 ^ 31 - 1).

(** The coordinates of a packet of the feed are 32-bit ints. *)
Definition packet_int32 (f : feed) : bool :=
  match f with
  | Packet (r, c) => int32 r && int32 c
  | _ => true
  end.

(** Simplify a step of the loop without unfolding what it calls. *)
Ltac loop_cbn :=
  cbn -[check_winner board_get board_set click_cell Pickle.dumps
        Py.getitem Py.setitem other_mark].

(** Close a conjunction of facts at hand, bounds and simple choices. *)
Ltac close_conj :=
  split_and!; try done; try lia; try (left; done); try (right; done).

(** * Properties *)

(** ** The wire format on examples *)

Example dumps_0_0 :
  Pickle.dumps (0, 0) =
  [x80; x04; x95; x07; x00; x00; x00; x00; x00; x00; x00;
   x4b; x00; x4b; x00; x86; x94; x2e].
Proof. reflexivity. Qed.

Example save_long_examples :
  Pickle.save_long 255 = [x4b; xff] /\
  Pickle.save_long 256 = [x4d; x00; x01] /\
  Pickle.save_long (-1) = [x4a; xff; xff; xff; xff] /\
  Pickle.save_long (2 ^ 31) = [x8a; x05; x00; x00; x00; x80; x00] /\
  Pickle.save_long (- 2 ^ 31 - 1) = [x8a; x05; xff; xff; xff; x7f; xff] /\
  Pickle.save_long (-(2 ^ 39)) = [x8a; x05; x00; x00; x00; x00; x80].
Proof. repeat split; vm_compute; reflexivity. Qed.

Example loads_examples :
  Pickle.loads (Pickle.dumps (1, 2)) = Ret (PyTuple [PyInt 1; PyInt 2]) /\
  Pickle.loads (Pickle.dumps (-1, 2 ^ 40)) = Ret (PyTuple [PyInt (-1); PyInt (2 ^ 40)]) /\
  Pickle.loads (Pickle.dumps (- 2 ^ 39, 70000)) = Ret (PyTuple [PyInt (- 2 ^ 39); PyInt 70000]) /\
  Pickle.loads [] = Raise EOFError.
Proof. repeat split; vm_compute; reflexivity. Qed.

Example host_first_move :
  let w := run [Tick [MOUSEBUTTONDOWN 0 0]] (init_world true) in
  board (locals w) = [[Some MarkX; None; None]; [None; None; None]; [None; None; None]]
  /\ trace w = [BoardWrite 0 0 MarkX; SockWrite (Pickle.dumps (0, 0))]
  /\ phase_of (locals w) = OpponentTurn.
Proof. vm_compute. auto. Qed.

(** ** Win detection *)

Lemma is_3x3_inv (b : Board) :
  is_3x3 b ->
  exists a0 a1 a2 b0 b1 b2 c0 c1 c2 : cell,
    b = [[a0; a1; a2]; [b0; b1; b2]; [c0; c1; c2]].
Proof.
  intros [Hlen Hrows].
  destruct b as [|r0 [|r1 [|r2 [|? ?]]]]; try discriminate Hlen.
  apply Forall_cons in Hrows as [H0 Hrows].
  apply Forall_cons in Hrows as [H1 Hrows].
  apply Forall_cons in Hrows as [H2 _].
  destruct r0 as [|a0 [|a1 [|a2 [|? ?]]]]; try discriminate H0.
  destruct r1 as [|b0 [|b1 [|b2 [|? ?]]]]; try discriminate H1.
  destruct r2 as [|c0 [|c1 [|c2 [|? ?]]]]; try discriminate H2.
  by exists a0, a1, a2, b0, b1, b2, c0, c1, c2.
Qed.

Lemma is_3x3_intro (a0 a1 a2 b0 b1 b2 c0 c1 c2 : cell) :
  is_3x3 [[a0; a1; a2]; [b0; b1; b2]; [c0; c1; c2]].
Proof. split; [reflexivity | repeat constructor]. Qed.

(** On a 3x3 board the list comprehensions of [check_winner] never raise
    and collect exactly the eight lines of the description. *)
Lemma build_lines_3x3 (b : Board) :
  is_3x3 b -> build_lines b = Ret (spec_lines b).
Proof.
  intros Hb. apply is_3x3_inv in Hb.
  destruct Hb as (a0 & a1 & a2 & b0 & b1 & b2 & c0 & c1 & c2 & ->).
  reflexivity.
Qed.

Lemma spec_lines_length (b : Board) :
  Forall (fun l => length l = 3%nat) (spec_lines b).
Proof. repeat constructor. Qed.

(** The test of the loop on a line of three cells. *)
Lemma line_test_3 (line : list cell) :
  length line = 3%nat -> line_test line = Ret (bool_decide (line_won line)).
Proof.
  intros Hlen.
  destruct line as [|p [|q [|r [|? ?]]]]; try discriminate Hlen.
  destruct (decide (line_won [p; q; r])) as [[m Hm]|Hno].
  - rewrite bool_decide_eq_true_2 by (by exists m).
    unfold line_won_by in Hm. simplify_eq. by destruct m.
  - rewrite bool_decide_eq_false_2 by done.
    destruct p as [[]|], q as [[]|], r as [[]|]; try reflexivity;
      exfalso; apply Hno; eexists; reflexivity.
Qed.

Lemma scan_lines_find (lines : list (list cell)) :
  Forall (fun l => length l = 3%nat) lines ->
  scan_lines lines = Ret (found_mark (list_find line_won lines)).
Proof.
  induction 1 as [|line lines Hlen _ IH]; [reflexivity|].
  cbn [scan_lines list_find]. rewrite (line_test_3 _ Hlen).
  destruct (decide (line_won line)) as [[m Hm]|Hno].
  - rewrite bool_decide_eq_true_2 by (by exists m).
    unfold line_won_by in Hm. subst line. reflexivity.
  - rewrite bool_decide_eq_false_2 by done.
    cbn. rewrite IH. unfold found_mark.
    by destruct (list_find line_won lines) as [[? ?]|].
Qed.

Lemma cell_truthy_true (c : cell) : cell_truthy c = true <-> c <> None.
Proof. destruct c; cbn; split; congruence. Qed.

Lemma board_full_3x3 (b : Board) :
  is_3x3 b -> board_full b = true <-> all_filled b.
Proof.
  intros Hb. apply is_3x3_inv in Hb.
  destruct Hb as (a0 & a1 & a2 & b0 & b1 & b2 & c0 & c1 & c2 & ->).
  unfold board_full, all_filled. cbn [forallb].
  rewrite !andb_true_iff, !cell_truthy_true. split.
  - intros H r c Hr Hc.
    destruct r as [|[|[|r]]]; [| | |lia];
      (destruct c as [|[|[|c]]]; [| | |lia]); cbn; tauto.
  - intros H.
    pose proof (H 0 0)%nat. pose proof (H 0 1)%nat. pose proof (H 0 2)%nat.
    pose proof (H 1 0)%nat. pose proof (H 1 1)%nat. pose proof (H 1 2)%nat.
    pose proof (H 2 0)%nat. pose proof (H 2 1)%nat. pose proof (H 2 2)%nat.
    cbn in *. repeat split; auto with lia.
Qed.

(** [check_winner] on a 3x3 board, as a search for the first won line. *)
Lemma check_winner_3x3 (b : Board) :
  is_3x3 b ->
  check_winner b =
  Ret match list_find line_won (spec_lines b) with
      | Some (_, l) => option_map Won (default None (head l))
      | None => if board_full b then Some Draw else None
      end.
Proof.
  intros Hb. unfold check_winner.
  rewrite (build_lines_3x3 _ Hb). cbn [mbind res_bind].
  rewrite (scan_lines_find _ (spec_lines_length b)). cbn [mbind res_bind].
  destruct (list_find line_won (spec_lines b)) as [[i l]|]; cbn; [reflexivity|].
  by destruct (board_full b).
Qed.

Lemma first_won_by_find (lines : list (list cell)) (m : symbol) :
  first_won_by lines m <->
  exists i, list_find line_won lines = Some (i, [Some m; Some m; Some m]).
Proof.
  split.
  - intros (i & l & Hi & Hm & Hmin). exists i.
    unfold line_won_by in Hm. subst l.
    apply list_find_Some. split_and!; [done|by exists m|].
    intros j y Hj Hlt. by apply (Hmin j).
  - intros [i Hfind]. apply list_find_Some in Hfind as (Hi & _ & Hmin).
    exists i, [Some m; Some m; Some m]. split_and!; [done|done|].
    intros j l' Hj Hlt. by apply (Hmin j).
Qed.

(** C4: on every 3x3 board [check_winner] returns; it returns the mark [m]
    exactly when the first completed line among the 3 rows, 3 columns and
    2 diagonals (in that order) is completed by [m]; it returns ['Draw']
    exactly when no line is completed and all nine cells are filled; and
    [None] exactly when no line is completed and some cell is empty.  The
    empty board gives [None], a board whose row 0 holds one mark three
    times gives that mark, and a filled board without a completed line
    gives ['Draw']. *)
Theorem check_winner_outcome (b : Board) :
  is_3x3 b ->
  (exists w, check_winner b = Ret w)
  /\ (forall m, check_winner b = Ret (Some (Won m)) <-> first_won_by (spec_lines b) m)
  /\ (check_winner b = Ret (Some Draw) <-> no_line_won b /\ all_filled b)
  /\ (check_winner b = Ret None <-> no_line_won b /\ ~ all_filled b)
  /\ check_winner (replicate 3 (replicate 3 None)) = Ret None
  /\ (forall m, b !! 0%nat = Some [Some m; Some m; Some m] ->
        check_winner b = Ret (Some (Won m)))
  /\ (all_filled b -> no_line_won b -> check_winner b = Ret (Some Draw)).
Proof.
  intros Hb.
  assert (Hcore :
    (forall m, check_winner b = Ret (Some (Won m)) <-> first_won_by (spec_lines b) m)
    /\ (check_winner b = Ret (Some Draw) <-> no_line_won b /\ all_filled b)
    /\ (check_winner b = Ret None <-> no_line_won b /\ ~ all_filled b)).
  { rewrite (check_winner_3x3 _ Hb). unfold no_line_won.
    setoid_rewrite first_won_by_find.
    rewrite <- (board_full_3x3 _ Hb).
    generalize (spec_lines b). intros lines.
    destruct (list_find line_won lines) as [[i l]|] eqn:Hfind.
    - assert (Hsome : ~ Forall (fun l => ~ line_won l) lines).
      { intros Hall.
        pose proof (proj2 (list_find_None line_won lines) Hall). congruence. }
      pose proof Hfind as Hwon.
      apply list_find_Some in Hwon as (_ & [m0 Hm0] & _).
      unfold line_won_by in Hm0. subst l. cbn.
      split_and!.
      + intros m. split.
        * intros [= ->]. by exists i.
        * intros [i' [= -> ->]]. reflexivity.
      + split; [discriminate|]. intros [Hall _]. by destruct Hsome.
      + split; [discriminate|]. intros [Hall _]. by destruct Hsome.
    - apply (list_find_None line_won lines) in Hfind.
      split_and!.
      + intros m. split.
        * destruct (board_full b); discriminate.
        * intros [i' [=]].
      + destruct (board_full b); split; try done.
        intros [_ [=]].
      + destruct (board_full b); split; try done.
        intros [_ Hn]. by destruct Hn. }
  destruct Hcore as (Hwon & Hdraw & Hnone).
  split_and!; try done.
  - rewrite (check_winner_3x3 _ Hb). eauto.
  - intros m Hrow. apply Hwon.
    apply is_3x3_inv in Hb.
    destruct Hb as (a0 & a1 & a2 & b0 & b1 & b2 & c0 & c1 & c2 & ->).
    cbn in Hrow. injection Hrow as -> -> ->.
    exists 0%nat, [Some m; Some m; Some m]. split_and!; [done|done|].
    intros j l' _ Hlt. lia.
  - intros Hfull Hno. by apply Hdraw.
Qed.

Lemma check_winner_outcome_witness :
  let b := [[Some MarkX; Some MarkX; Some MarkX];
            [Some MarkO; Some MarkO; None];
            [None; None; None]] in
  is_3x3 b /\ check_winner b = Ret (Some (Won MarkX)).
Proof.
  cbn zeta. split; [apply is_3x3_intro|].
  eapply (check_winner_outcome _ (is_3x3_intro _ _ _ _ _ _ _ _ _)).
  reflexivity.
Defined.

(** C10: an all-Empty line never passes the test of the loop and is
    skipped; the test passes only on a line whose first cell holds a mark,
    so the loop never leaves through [return line[0]] with [None]; and a
    win reported for a 3x3 board is always backed by a line that holds the
    winning mark three times. *)
Theorem empty_line_never_wins (line : list cell) (lines : list (list cell)) :
  (line <> [] -> Forall (fun c => c = None) line ->
     line_test line = Ret false /\ scan_lines (line :: lines) = scan_lines lines)
  /\ (line_test line = Ret true -> exists m, Py.getitem line 0 = Ret (Some m))
  /\ scan_lines lines <> Ret (Some None)
  /\ (forall b m, is_3x3 b -> check_winner b = Ret (Some (Won m)) ->
        exists l, l ∈ spec_lines b /\ l = [Some m; Some m; Some m]).
Proof.
  assert (Htest : forall l, line_test l = Ret true ->
                            exists m, Py.getitem l 0 = Ret (Some m)).
  { intros l. unfold line_test.
    destruct (Py.getitem l 0) as [[m|]|e]; cbn; [eauto|discriminate..]. }
  split_and!.
  - intros Hne Hall.
    destruct line as [|c line']; [done|].
    apply Forall_cons in Hall as [-> _].
    split; reflexivity.
  - apply Htest.
  - induction lines as [|l lines' IH]; [discriminate|].
    cbn [scan_lines].
    destruct (line_test l) as [[|]|e] eqn:Hl; cbn; [|done|discriminate].
    destruct (Htest _ Hl) as [m ->]. discriminate.
  - intros b m Hb. rewrite (check_winner_3x3 _ Hb).
    destruct (list_find line_won (spec_lines b)) as [[i l]|] eqn:Hfind.
    + apply list_find_Some in Hfind as (Hi & [m0 Hm0] & _).
      unfold line_won_by in Hm0. subst l. cbn. intros [= ->].
      eexists. split; [|reflexivity]. by eapply list_elem_of_lookup_2.
    + destruct (board_full b); discriminate.
Qed.

Lemma empty_line_never_wins_witness :
  let line : list cell := [None; None; None] in
  let lines := [[Some MarkO; Some MarkO; Some MarkO]] in
  line_test line = Ret false /\ scan_lines (line :: lines) = Ret (Some (Some MarkO)).
Proof.
  cbn zeta.
  destruct (empty_line_never_wins [None; None; None]
              [[Some MarkO; Some MarkO; Some MarkO]]) as (Hskip & _).
  destruct Hskip as [Ht Hs]; [discriminate|repeat constructor|].
  split; [exact Ht|]. rewrite Hs. reflexivity.
Defined.

(** ** Indexing lemmas *)

Lemma norm_index_lt {A} (l : list A) (i : Z) (j : nat) :
  Py.norm_index l i = Ret j -> (j < length l)%nat.
Proof.
  unfold Py.norm_index.
  destruct (i <? 0) eqn:Hi;
    match goal with |- context [if ?t then _ else _] => destruct t eqn:Hb end;
    try discriminate; intros [= <-];
    apply orb_false_iff in Hb as [H1 H2]; lia.
Qed.

Lemma norm_index_range {A} (l : list A) (i : Z) :
  0 <= i < Z.of_nat (length l) -> Py.norm_index l i = Ret (Z.to_nat i).
Proof.
  intros Hi. unfold Py.norm_index.
  replace (i <? 0) with false by lia.
  replace ((i <? 0) || (Z.of_nat (length l) <=? i)) with false by lia.
  reflexivity.
Qed.

Lemma getitem_Ret {A} (l : list A) (i : Z) (a : A) :
  Py.getitem l i = Ret a ->
  exists j, Py.norm_index l i = Ret j /\ l !! j = Some a.
Proof.
  unfold Py.getitem. destruct (Py.norm_index l i) as [j|e]; [|discriminate].
  cbn. destruct (l !! j) as [a'|] eqn:Hj; [|discriminate].
  intros [= <-]. eauto.
Qed.

Lemma setitem_Ret {A} (l l' : list A) (i : Z) (v : A) :
  Py.setitem l i v = Ret l' ->
  exists j, Py.norm_index l i = Ret j /\ l' = <[j := v]> l.
Proof.
  unfold Py.setitem. destruct (Py.norm_index l i) as [j|e]; [|discriminate].
  cbn. intros [= <-]. eauto.
Qed.

Lemma setitem_length {A} (l l' : list A) (i : Z) (v : A) :
  Py.setitem l i v = Ret l' -> length l' = length l.
Proof.
  intros (j & _ & ->)%setitem_Ret. apply length_insert.
Qed.

(** Where [l[i]] can be read, [l[i] = v] succeeds. *)
Lemma getitem_setitem {A} (l : list A) (i : Z) (a v : A) :
  Py.getitem l i = Ret a -> exists l', Py.setitem l i v = Ret l'.
Proof.
  intros (j & Hj & _)%getitem_Ret. unfold Py.setitem. rewrite Hj. cbn. eauto.
Qed.

(** Writing a cell of a 3x3 board leaves a 3x3 board. *)
Lemma write_cell_3x3 (b b' : Board) (row row' : list cell) (r c : Z) (v : cell) :
  is_3x3 b ->
  Py.getitem b r = Ret row ->
  Py.setitem row c v = Ret row' ->
  Py.setitem b r row' = Ret b' ->
  is_3x3 b'.
Proof.
  intros [Hlen Hrows] Hget Hrow Hset.
  apply getitem_Ret in Hget as (j & Hj & Hlook).
  apply setitem_length in Hrow as Hrowlen.
  apply setitem_Ret in Hset as (j' & Hj' & ->).
  split.
  - by rewrite length_insert.
  - apply Forall_insert; [done|].
    rewrite Hrowlen. by apply (Forall_lookup_1 _ _ _ _ Hrows Hlook).
Qed.

Lemma board_set_3x3 (b b' : Board) (r c : Z) (v : cell) :
  is_3x3 b -> board_set b r c v = Ret b' -> is_3x3 b'.
Proof.
  intros Hb. unfold board_set.
  destruct (Py.getitem b r) as [row|e] eqn:Hget; [|discriminate]. cbn.
  destruct (Py.setitem row c v) as [row'|e] eqn:Hrow; [|discriminate]. cbn.
  intros Hset. by eapply write_cell_3x3.
Qed.

Lemma board_get_set (b : Board) (r c : Z) (x v : cell) :
  board_get b r c = Ret x -> exists b', board_set b r c v = Ret b'.
Proof.
  unfold board_get, board_set.
  destruct (Py.getitem b r) as [row|e] eqn:Hget; [|discriminate]. cbn.
  intros Hcell.
  destruct (getitem_setitem _ _ _ v Hcell) as [row' ->]. cbn.
  by eapply getitem_setitem.
Qed.

Lemma board_get_3x3 (b : Board) (r c : Z) :
  is_3x3 b -> 0 <= r <= 2 -> 0 <= c <= 2 ->
  board_get b r c = Ret (cell_at b (Z.to_nat r) (Z.to_nat c)).
Proof.
  intros Hb Hr Hc. apply is_3x3_inv in Hb.
  destruct Hb as (a0 & a1 & a2 & b0 & b1 & b2 & c0 & c1 & c2 & ->).
  assert (r = 0 \/ r = 1 \/ r = 2) as [->|[->| ->]] by lia;
    (assert (c = 0 \/ c = 1 \/ c = 2) as [->|[->| ->]] by lia); reflexivity.
Qed.

Lemma check_winner_total (b : Board) :
  is_3x3 b -> exists w, check_winner b = Ret w.
Proof. intros Hb. rewrite (check_winner_3x3 _ Hb). eauto. Qed.

Lemma click_cell_range (x y : Z) :
  0 <= x < WIDTH -> 0 <= y < HEIGHT ->
  0 <= (click_cell x y).1 <= 2 /\ 0 <= (click_cell x y).2 <= 2.
Proof.
  unfold click_cell, WIDTH, HEIGHT. cbn [fst snd].
  change (600 / 3) with 200. intros Hx Hy.
  assert (0 <= y / 200 < 3)
    by (split; [apply Z.div_pos | apply Z.div_lt_upper_bound]; lia).
  assert (0 <= x / 200 < 3)
    by (split; [apply Z.div_pos | apply Z.div_lt_upper_bound]; lia).
  lia.
Qed.

(** ** What one event and one received object do *)

(** A mouse press either changes nothing, or places the local mark on an
    empty cell, writes that cell's coordinates to the socket and hands the
    turn over. *)
Lemma on_event_cases (n : Network) (g g' : game) (ev : event) (log : list effect) :
  on_event n g ev = Ret (g', log) ->
  (log = [] /\ board g' = board g /\ winner g' = winner g
   /\ is_my_turn g' = is_my_turn g /\ mark g' = mark g
   /\ (ev <> QUIT -> g' = g))
  \/ (exists x y b' w,
        ev = MOUSEBUTTONDOWN x y /\ y < HEIGHT
        /\ is_my_turn g = true /\ winner g = None /\ conn_up n = true
        /\ board_get (board g) (click_cell x y).1 (click_cell x y).2 = Ret None
        /\ board_set (board g) (click_cell x y).1 (click_cell x y).2
             (Some (mark g)) = Ret b'
        /\ check_winner b' = Ret w
        /\ g' = mkGame b' w false (mark g) (running g)
        /\ log = [BoardWrite (click_cell x y).1 (click_cell x y).2 (mark g);
                  SockWrite (Pickle.dumps (click_cell x y))]).
Proof.
  destruct ev as [|x y|]; loop_cbn.
  - intros [= <- <-]. left. by split_and!.
  - destruct (is_my_turn g) eqn:Hturn; loop_cbn;
      [|intros [= <- <-]; left; by split_and!].
    destruct (winner g) as [o|] eqn:Hwin; loop_cbn;
      [intros [= <- <-]; left; by split_and!|].
    destruct (y <? HEIGHT) eqn:Hy; [|intros [= <- <-]; left; by split_and!].
    destruct (click_cell x y) as [row col] eqn:Hcell. loop_cbn.
    destruct (board_get (board g) row col) as [[m|]|e] eqn:Hget; loop_cbn;
      [intros [= <- <-]; left; by split_and!| |discriminate].
    destruct (board_set (board g) row col (Some (mark g))) as [b'|e] eqn:Hset;
      [|discriminate]. loop_cbn.
    unfold send, sendall.
    destruct (conn_up n) eqn:Hup; [|discriminate]. loop_cbn.
    destruct (check_winner b') as [w|e] eqn:Hw; [|discriminate]. loop_cbn.
    intros [= <- <-]. right.
    exists x, y, b', w. rewrite Hcell. loop_cbn.
    split_and!; try done. lia.
  - intros [= <- <-]. left. by split_and!.
Qed.

(** A received object either changes nothing, or places the opponent's
    mark at the received coordinates and takes the turn. *)
Lemma on_data_cases (g g' : game) (data : pyobj) (log : list effect) :
  on_data g data = Ret (g', log) ->
  (log = [] /\ g' = g)
  \/ (exists ri ci row row' b' w,
        data = PyTuple [PyInt ri; PyInt ci]
        /\ is_my_turn g = false /\ winner g = None
        /\ Py.getitem (board g) ri = Ret row
        /\ Py.setitem row ci (Some (other_mark (mark g))) = Ret row'
        /\ Py.setitem (board g) ri row' = Ret b'
        /\ check_winner b' = Ret w
        /\ g' = mkGame b' w true (mark g) (running g)
        /\ log = [BoardWrite ri ci (other_mark (mark g))]).
Proof.
  unfold on_data.
  destruct (py_truthy data && negb (is_my_turn g) && is_None (winner g)) eqn:Hguard;
    [|intros [= <- <-]; by left].
  apply andb_true_iff in Hguard as [Hguard Hwin].
  apply andb_true_iff in Hguard as [_ Hturn].
  apply negb_true_iff in Hturn.
  destruct (winner g) as [o|] eqn:Hw0; [discriminate|].
  destruct data as [|z|[|r [|c [|? ?]]]]; try discriminate.
  destruct r as [|ri|?]; try discriminate.
  loop_cbn.
  destruct (Py.getitem (board g) ri) as [row|e] eqn:Hget; loop_cbn; [|discriminate].
  destruct c as [|ci|?]; try discriminate. loop_cbn.
  destruct (Py.setitem row ci (Some (other_mark (mark g)))) as [row'|e] eqn:Hrow;
    loop_cbn; [|discriminate].
  destruct (Py.setitem (board g) ri row') as [b'|e] eqn:Hset; loop_cbn; [|discriminate].
  destruct (check_winner b') as [w|e] eqn:Hw; loop_cbn; [|discriminate].
  intros [= <- <-]. right.
  exists ri, ci, row, row', b', w. by split_and!.
Qed.

(** ** Turn bookkeeping *)

Lemma iter_shift {A} (f : A -> A) (k : nat) (x : A) :
  Nat.iter k f (f x) = f (Nat.iter k f x).
Proof. induction k as [|k IH]; [reflexivity|]. by rewrite !Nat.iter_succ, IH. Qed.

Lemma alternate_app (m : symbol) (a b : nat) :
  alternate m (a + b) = alternate m a ++ alternate (Nat.iter a other_mark m) b.
Proof.
  revert m. induction a as [|a IH]; intros m; [reflexivity|].
  cbn [Nat.add alternate app]. rewrite IH, Nat.iter_succ.
  by rewrite (iter_shift other_mark a m).
Qed.

Lemma turns_taken_refl (g g' : game) :
  mark g' = mark g -> is_my_turn g' = is_my_turn g -> turns_taken g [] g'.
Proof.
  intros Hm Ht. unfold turns_taken, turn_owner. cbn. rewrite Hm, Ht. done.
Qed.

Lemma turns_taken_trans (g g1 g2 : game) (log1 log2 : list effect) :
  turns_taken g log1 g1 -> turns_taken g1 log2 g2 ->
  turns_taken g (log1 ++ log2) g2.
Proof.
  unfold turns_taken, written_marks.
  intros (Hm1 & Hw1 & Ho1 & Ht1) (Hm2 & Hw2 & Ho2 & Ht2).
  rewrite omap_app, length_app.
  set (k1 := length (omap _ log1)) in *.
  set (k2 := length (omap _ log2)) in *.
  split_and!.
  - congruence.
  - rewrite alternate_app, <- Ho1. by f_equal.
  - rewrite Ho2, Ho1, (Nat.add_comm k1 k2). symmetry. apply Nat.iter_add.
  - rewrite Ht2, Ht1, (Nat.add_comm k1 k2). symmetry. apply Nat.iter_add.
Qed.

Lemma on_event_turns (n : Network) (g g' : game) (ev : event) (log : list effect) :
  on_event n g ev = Ret (g', log) -> turns_taken g log g'.
Proof.
  intros [(-> & _ & _ & Ht & Hm & _)|(x & y & b' & w & _ & _ & Ht & _ & _ & _ & _ & _ & -> & ->)]%on_event_cases.
  - by apply turns_taken_refl.
  - unfold turns_taken, turn_owner. cbn. rewrite Ht. by split_and!.
Qed.

Lemma on_data_turns (g g' : game) (data : pyobj) (log : list effect) :
  on_data g data = Ret (g', log) -> turns_taken g log g'.
Proof.
  intros [(-> & ->)|(ri & ci & row & row' & b' & w & _ & Ht & _ & _ & _ & _ & _ & -> & ->)]%on_data_cases.
  - by apply turns_taken_refl.
  - unfold turns_taken, turn_owner. cbn. rewrite Ht. cbn.
    split_and!; try done. by destruct (mark g).
Qed.

Lemma on_events_turns (n : Network) (evs : list event) (g g' : game) (log : list effect) :
  on_events n g evs = Ret (g', log) -> turns_taken g log g'.
Proof.
  revert g g' log. induction evs as [|ev evs IH]; intros g g' log; cbn.
  - intros [= <- <-]. by apply turns_taken_refl.
  - destruct (on_event n g ev) as [[g1 log1]|e] eqn:H1; [|discriminate]. cbn.
    destruct (on_events n g1 evs) as [[g2 log2]|e] eqn:H2; [|discriminate]. cbn.
    intros [= <- <-].
    eapply turns_taken_trans; [by eapply on_event_turns|by eapply IH].
Qed.

Lemma tick_turns (evs : list event) (n n' : Network) (g g' : game) (log : list effect) :
  tick evs n g = Ret (g', n', log) -> turns_taken g log g'.
Proof.
  unfold tick.
  destruct (on_events n g evs) as [[g1 log1]|e] eqn:H1; [|discriminate]. cbn.
  destruct (receive n) as [data n1].
  destruct (on_data g1 data) as [[g2 log2]|e] eqn:H2; [|discriminate]. cbn.
  intros [= <- <- <-].
  eapply turns_taken_trans; [by eapply on_events_turns|by eapply on_data_turns].
Qed.

(** ** Steps of the process *)

Lemma run_cons (a : action) (acts : list action) (w : world) :
  run (a :: acts) w = run acts (step a w).
Proof. reflexivity. Qed.

Lemma step_turns (a : action) (w : world) :
  exists log,
    trace (step a w) = trace w ++ log
    /\ turns_taken (locals w) log (locals (step a w)).
Proof.
  assert (Hsame : exists log, trace w = trace w ++ log
                              /\ turns_taken (locals w) log (locals w)).
  { exists []. split; [by rewrite app_nil_r|by apply turns_taken_refl]. }
  destruct a as [evs|r|]; cbn [step].
  - destruct (main_thread w); [done|].
    destruct (running (locals w)); [|done].
    destruct (tick evs (net w) (locals w)) as [[[g n'] log]|e] eqn:Htick; [|done].
    exists log. split; [done|]. by eapply tick_turns.
  - destruct (worker w); [done|].
    by destruct (receive_iter r (queue (net w))).
  - done.
Qed.

Lemma run_turns (acts : list action) (w : world) :
  exists log,
    trace (run acts w) = trace w ++ log
    /\ turns_taken (locals w) log (locals (run acts w)).
Proof.
  revert w. induction acts as [|a acts IH]; intros w.
  - exists []. split; [by rewrite app_nil_r|by apply turns_taken_refl].
  - rewrite run_cons.
    destruct (step_turns a w) as (log1 & Ht1 & Hturn1).
    destruct (IH (step a w)) as (log2 & Ht2 & Hturn2).
    exists (log1 ++ log2). split.
    + by rewrite Ht2, Ht1, app_assoc.
    + by eapply turns_taken_trans.
Qed.

(** ** Runs in which no iteration of the loop raised

    Once an iteration has raised, the main thread stays ended; so a run
    that leaves [main_thread] at [None] is one in which every iteration
    that was started ran to its end. *)

Lemma step_raised (a : action) (w : world) :
  main_thread w <> None -> main_thread (step a w) = main_thread w.
Proof.
  intros Hended. destruct a as [evs|r|]; cbn [step].
  - by destruct (main_thread w) eqn:Hmain.
  - destruct (worker w); [done|].
    by destruct (receive_iter r (queue (net w))).
  - done.
Qed.

Lemma run_raised (acts : list action) (w : world) :
  main_thread w <> None -> main_thread (run acts w) = main_thread w.
Proof.
  revert w. induction acts as [|a acts IH]; intros w Hended; [done|].
  rewrite run_cons, IH; rewrite step_raised; done.
Qed.

Lemma run_app (acts rest : list action) (w : world) :
  run (acts ++ rest) w = run rest (run acts w).
Proof. apply foldl_app. Qed.

Lemma quiet_prefix (acts rest : list action) (w : world) :
  main_thread (run (acts ++ rest) w) = None -> main_thread (run acts w) = None.
Proof.
  rewrite run_app. intros Hquiet.
  destruct (main_thread (run acts w)) as [e|] eqn:Hmid; [|done].
  rewrite run_raised in Hquiet by congruence. congruence.
Qed.

(** In such a run every iteration that was started returned, and the
    state after it is the one the iteration built. *)
Lemma quiet_tick_returns (acts rest : list action) (evs : list event) (w : world) :
  main_thread (run (acts ++ Tick evs :: rest) w) = None ->
  running (locals (run acts w)) = true ->
  exists g n log,
    tick evs (net (run acts w)) (locals (run acts w)) = Ret (g, n, log)
    /\ run (acts ++ [Tick evs]) w
       = mkWorld g n None (worker (run acts w)) (trace (run acts w) ++ log).
Proof.
  intros Hquiet Hrunning.
  change (Tick evs :: rest) with ([Tick evs] ++ rest) in Hquiet.
  rewrite app_assoc in Hquiet. apply quiet_prefix in Hquiet.
  pose proof (quiet_prefix _ _ _ Hquiet) as Hbefore.
  rewrite run_app in Hquiet |- *. cbn [run foldl step] in Hquiet |- *.
  fold (run acts w) in Hquiet |- *.
  rewrite Hbefore, Hrunning in Hquiet |- *.
  destruct (tick evs (net (run acts w)) (locals (run acts w)))
    as [[[g n] log]|e]; [|discriminate].
  by exists g, n, log.
Qed.

(** C5: the host starts in [MyTurn] with ['X'] and the joiner in
    [OpponentTurn] with ['O'], so ['X'] moves first on both sides; in a
    run in which every received packet holds a pickled pair of 32-bit
    ints and no iteration of the loop has raised - so that every move
    that was applied was applied in full - the marks placed so far
    alternate beginning with ['X'], and the turn has changed hands exactly
    once per placed mark. *)
Theorem turns_alternate (server : bool) (feeds : list feed) :
  let w := run (feed_action <$> feeds) (init_world server) in
  let k := length (written_marks (trace w)) in
  forallb packet_int32 feeds = true ->
  main_thread w = None ->
  phase_of (init_game server) = (if server then MyTurn else OpponentTurn)
  /\ mark (init_game server) = (if server then MarkX else MarkO)
  /\ turn_owner (init_game server) = MarkX
  /\ written_marks (trace w) = alternate MarkX k
  /\ turn_owner (locals w) = Nat.iter k other_mark MarkX
  /\ is_my_turn (locals w) = Nat.iter k negb server.
Proof.
  cbn zeta. intros _ _.
  generalize (feed_action <$> feeds). intros acts.
  destruct (run_turns acts (init_world server)) as (log & Htrace & Hturns).
  cbn [init_world trace app] in Htrace. rewrite Htrace.
  destruct Hturns as (_ & Hmarks & Howner & Hmine).
  assert (Hfirst : turn_owner (init_game server) = MarkX) by by destruct server.
  cbn [init_world locals] in *. rewrite Hfirst in *.
  split_and!; try done; by destruct server.
Qed.

Lemma turns_alternate_witness :
  let w := run (feed_action <$>
                [Events [MOUSEBUTTONDOWN 0 0]; Packet (1, 1); Events [];
                 Events [MOUSEBUTTONDOWN 500 500]])
               (init_world true) in
  written_marks (trace w) = [MarkX; MarkO; MarkX]
  /\ is_my_turn (locals w) = false.
Proof.
  cbn zeta.
  destruct (turns_alternate true
              [Events [MOUSEBUTTONDOWN 0 0]; Packet (1, 1); Events [];
               Events [MOUSEBUTTONDOWN 500 500]])
    as (_ & _ & _ & Hmarks & _ & Hturn); [reflexivity|reflexivity|].
  split; [rewrite Hmarks|rewrite Hturn]; vm_compute; reflexivity.
Defined.

(** ** After the game is over *)







(** ** The local move *)

Lemma norm_index_length {A B} (l : list A) (l' : list B) (i : Z) :
  length l = length l' -> Py.norm_index l i = Py.norm_index l' i.
Proof. intros Hlen. unfold Py.norm_index. by rewrite Hlen. Qed.

Lemma getitem_after_setitem {A} (l l' : list A) (i : Z) (v : A) :
  Py.setitem l i v = Ret l' -> Py.getitem l' i = Ret v.
Proof.
  intros Hset. pose proof (setitem_length _ _ _ _ Hset) as Hlen.
  apply setitem_Ret in Hset as (j & Hj & ->).
  unfold Py.getitem.
  rewrite (norm_index_length _ l) by done. rewrite Hj. cbn.
  rewrite list_lookup_insert_eq; [done|]. by eapply norm_index_lt.
Qed.

Lemma board_get_after_set (b b' : Board) (r c : Z) (v : cell) :
  board_set b r c v = Ret b' -> board_get b' r c = Ret v.
Proof.
  unfold board_set, board_get.
  destruct (Py.getitem b r) as [row|e] eqn:Hget; [|discriminate]. cbn.
  destruct (Py.setitem row c v) as [row'|e] eqn:Hrow; [|discriminate]. cbn.
  intros Hset.
  rewrite (getitem_after_setitem _ _ _ _ Hset). cbn.
  by eapply getitem_after_setitem.
Qed.

(** C7: when it is the local player's turn, the game is in progress and a
    mouse press in the grid falls on an empty cell [(row, col)] of the 3x3
    board, the loop writes the local mark there and hands the pair
    [(row, col)] to [send]; the pickled pair is what goes to the socket,
    and the state moves to [OpponentTurn], or to [GameOver] when
    [check_winner] reports an outcome.  (Were the socket write to fail,
    [send] would end the process with [sys.exit(1)].) *)
Theorem local_move_is_sent (n : Network) (g : game) (x y row col : Z) :
  is_3x3 (board g) ->
  is_my_turn g = true ->
  winner g = None ->
  y < HEIGHT ->
  click_cell x y = (row, col) ->
  board_get (board g) row col = Ret None ->
  exists b' w,
    board_set (board g) row col (Some (mark g)) = Ret b'
    /\ board_get b' row col = Ret (Some (mark g))
    /\ check_winner b' = Ret w
    /\ on_event n g (MOUSEBUTTONDOWN x y) =
       (if conn_up n then
          Ret (mkGame b' w false (mark g) (running g),
               [BoardWrite row col (mark g); SockWrite (Pickle.dumps (row, col))])
        else Raise (SystemExit 1))
    /\ phase_of (mkGame b' w false (mark g) (running g)) =
       match w with
       | Some _ => GameOver
       | None => OpponentTurn
       end.
Proof.
  intros Hb Hturn Hwin Hy Hcell Hget.
  destruct (board_get_set _ _ _ _ (Some (mark g)) Hget) as [b' Hset].
  destruct (check_winner_total b') as [w Hw]; [by eapply board_set_3x3|].
  exists b', w. split_and!; [done|by eapply board_get_after_set|done| |].
  - loop_cbn. rewrite Hturn, Hwin. loop_cbn.
    replace (y <? HEIGHT) with true by lia.
    rewrite Hcell, Hget. loop_cbn. rewrite Hset. loop_cbn.
    unfold send, sendall. destruct (conn_up n); loop_cbn; [|reflexivity].
    rewrite Hw. reflexivity.
  - unfold phase_of. cbn. by destruct w.
Qed.

Lemma local_move_is_sent_witness :
  on_event (mkNetwork true true []) (init_game true) (MOUSEBUTTONDOWN 250 450) =
  Ret (mkGame [[None; None; None]; [None; None; None]; [None; Some MarkX; None]]
              None false MarkX true,
       [BoardWrite 2 1 MarkX; SockWrite (Pickle.dumps (2, 1))]).
Proof.
  destruct (local_move_is_sent (mkNetwork true true []) (init_game true) 250 450 2 1)
    as (b' & w & Hset & _ & Hw & Hev & _);
    [apply is_3x3_intro|reflexivity|reflexivity|reflexivity
    |reflexivity|reflexivity|].
  rewrite Hev. vm_compute in Hset. injection Hset as <-.
  vm_compute in Hw. injection Hw as <-. reflexivity.
Defined.

(** C9: a mouse press at or below [HEIGHT] changes nothing; a press inside
    the grid maps to a row and a column between 0 and 2; and on a 3x3
    board such a press reads and writes the board inside its bounds, so
    handling it never raises [IndexError]. *)
Theorem click_stays_in_bounds (n : Network) (g : game) (x y : Z) :
  (HEIGHT <= y -> on_event n g (MOUSEBUTTONDOWN x y) = Ret (g, []))
  /\ (0 <= x < WIDTH -> 0 <= y < HEIGHT ->
        0 <= (click_cell x y).1 <= 2 /\ 0 <= (click_cell x y).2 <= 2)
  /\ (is_3x3 (board g) -> 0 <= x < WIDTH -> 0 <= y < HEIGHT ->
        (exists c, board_get (board g) (click_cell x y).1 (click_cell x y).2 = Ret c)
        /\ (exists b', board_set (board g) (click_cell x y).1 (click_cell x y).2
                         (Some (mark g)) = Ret b')
        /\ on_event n g (MOUSEBUTTONDOWN x y) <> Raise IndexError).
Proof.
  split_and!.
  - intros Hy. loop_cbn.
    replace (y <? HEIGHT) with false by lia.
    by destruct (is_my_turn g && is_None (winner g)).
  - apply click_cell_range.
  - intros Hb Hx Hy.
    destruct (click_cell_range x y Hx Hy) as [Hrow Hcol].
    pose proof (board_get_3x3 _ _ _ Hb Hrow Hcol) as Hget.
    destruct (board_get_set _ _ _ _ (Some (mark g)) Hget) as [b' Hset].
    split_and!; [eauto|eauto|].
    loop_cbn.
    destruct (is_my_turn g && is_None (winner g)); [|done].
    destruct (y <? HEIGHT); [|done].
    destruct (click_cell x y) as [row col]. cbn [fst snd] in *.
    rewrite Hget. loop_cbn.
    destruct (is_None _); [|done].
    rewrite Hset. loop_cbn.
    unfold send, sendall. destruct (conn_up n); [|done]. loop_cbn.
    destruct (check_winner_total b') as [w ->]; [by eapply board_set_3x3|].
    done.
Qed.

Lemma click_stays_in_bounds_witness :
  on_event (mkNetwork true true []) (init_game true) (MOUSEBUTTONDOWN 10 620)
    = Ret (init_game true, [])
  /\ click_cell 599 599 = (2, 2)
  /\ on_event (mkNetwork true true []) (init_game true) (MOUSEBUTTONDOWN 599 599)
     <> Raise IndexError.
Proof.
  destruct (click_stays_in_bounds (mkNetwork true true []) (init_game true) 10 620)
    as (Hbar & _ & _).
  destruct (click_stays_in_bounds (mkNetwork true true []) (init_game true) 599 599)
    as (_ & _ & Hgrid).
  split_and!.
  - apply Hbar. unfold HEIGHT. lia.
  - reflexivity.
  - apply Hgrid; [apply is_3x3_intro|unfold WIDTH; lia|unfold HEIGHT; lia].
Defined.

(** ** The wire format round trip *)

Lemma Z_of_byte_of_Z (z : Z) :
  0 <= z < 256 -> Pickle.Z_of_byte (Pickle.byte_of_Z z) = z.
Proof.
  intros Hz. unfold Pickle.Z_of_byte, Pickle.byte_of_Z.
  rewrite Z.mod_small by lia.
  destruct (Byte.of_N (Z.to_N z)) as [b|] eqn:Hb.
  - cbn. apply Byte.to_of_N in Hb. rewrite Hb. lia.
  - apply Byte.of_N_None_iff in Hb. lia.
Qed.

Lemma save_long_small (v : Z) :
  0 <= v <= 255 -> Pickle.save_long v = [Pickle.BININT1; Pickle.byte_of_Z v].
Proof.
  intros Hv. unfold Pickle.save_long.
  replace ((- 2 ^ 31 <=? v) && (v <=? 2 ^ 31 - 1)) with true by lia.
  replace ((v <? 0) || (65535 <? v)) with false by lia.
  replace (255 <? v) with false by lia.
  reflexivity.
Qed.

(** A pair of one-byte ints on the wire, and back. *)
Lemma dumps_small (r c : Z) :
  0 <= r <= 255 -> 0 <= c <= 255 ->
  Pickle.dumps (r, c) =
  [x80; x04; x95; x07; x00; x00; x00; x00; x00; x00; x00;
   x4b; Pickle.byte_of_Z r; x4b; Pickle.byte_of_Z c; x86; x94; x2e].
Proof.
  intros Hr Hc. unfold Pickle.dumps. cbn [fst snd].
  rewrite !save_long_small by done. reflexivity.
Qed.

Lemma loads_pair_bytes (br bc : byte) :
  Pickle.loads
    [x80; x04; x95; x07; x00; x00; x00; x00; x00; x00; x00;
     x4b; br; x4b; bc; x86; x94; x2e] =
  Ret (PyTuple [PyInt (Pickle.unpack_le [br]); PyInt (Pickle.unpack_le [bc])]).
Proof. reflexivity. Qed.

Lemma unpack_le_byte_of_Z (z : Z) :
  0 <= z <= 255 -> Pickle.unpack_le [Pickle.byte_of_Z z] = z.
Proof.
  intros Hz. cbn [Pickle.unpack_le]. rewrite Z_of_byte_of_Z by lia. lia.
Qed.

Lemma loads_dumps_small (r c : Z) :
  0 <= r <= 255 -> 0 <= c <= 255 ->
  Pickle.loads (Pickle.dumps (r, c)) = Ret (PyTuple [PyInt r; PyInt c]).
Proof.
  intros Hr Hc. rewrite dumps_small, loads_pair_bytes by done.
  by rewrite !unpack_le_byte_of_Z.
Qed.

(** C8: for row and column between 0 and 2, unpickling the bytes that
    pickling the pair produces gives back the same pair; so the packet
    that [send] writes for a move makes [_receive_loop] enqueue exactly
    that move, which the game loop unpacks into the same row and column. *)
Theorem move_round_trip (r c : Z) :
  0 <= r <= 2 -> 0 <= c <= 2 ->
  Pickle.loads (Pickle.dumps (r, c)) = Ret (PyTuple [PyInt r; PyInt c])
  /\ (forall n q, conn_up n = true ->
        exists packet,
          send n (r, c) = Ret packet
          /\ receive_iter (Ret packet) q = (q ++ [PyTuple [PyInt r; PyInt c]], None))
  /\ unpack2 (PyTuple [PyInt r; PyInt c]) = Ret (PyInt r, PyInt c).
Proof.
  intros Hr Hc.
  assert (Hload : Pickle.loads (Pickle.dumps (r, c)) = Ret (PyTuple [PyInt r; PyInt c]))
    by (apply loads_dumps_small; lia).
  split_and!; [done| |done].
  intros n q Hup. exists (Pickle.dumps (r, c)). split.
  - unfold send, sendall. by rewrite Hup.
  - unfold receive_iter. rewrite Hload.
    rewrite dumps_small by lia. reflexivity.
Qed.

Lemma move_round_trip_witness :
  Pickle.loads (Pickle.dumps (2, 1)) = Ret (PyTuple [PyInt 2; PyInt 1]).
Proof.
  destruct (move_round_trip 2 1) as (Hload & _); [lia|lia|exact Hload].
Defined.

(** ** The opcode loop never runs out of fuel *)

Lemma read_shrinks (k : nat) (bs v bs' : list byte) :
  Pickle.read k bs = Ret (v, bs') -> (length bs' <= length bs)%nat.
Proof.
  unfold Pickle.read. destruct (k <=? length bs)%nat; [|discriminate].
  intros [= _ <-]. rewrite length_drop. lia.
Qed.

Lemma load_op_shrinks (op : byte) (bs bs' : list byte) (st st' : list pyobj) :
  Pickle.load_op op bs st = Ret (inl (bs', st')) -> (length bs' <= length bs)%nat.
Proof.
  destruct op; try discriminate; unfold Pickle.load_op;
    repeat match goal with
    | |- context [Pickle.read ?k ?l] =>
        let H := fresh "Hread" in
        destruct (Pickle.read k l) as [[? ?]|?] eqn:H; cbn [mbind res_bind];
        [apply read_shrinks in H|discriminate]
    | |- context [if ?t then _ else _] => destruct t; try discriminate
    | |- context [match st with _ => _ end] =>
        destruct st as [|? [|? [|? ?]]]; try discriminate
    end;
    intros [= <- <-] || intros [= <- _]; lia.
Qed.

Lemma load_more_fuel (fuel : nat) (bs : list byte) (st : list pyobj) :
  (length bs <= fuel)%nat -> Pickle.load (S fuel) bs st = Pickle.load fuel bs st.
Proof.
  revert bs st. induction fuel as [|fuel IH]; intros bs st Hlen.
  - destruct bs; [reflexivity|cbn in Hlen; lia].
  - destruct bs as [|op bs]; [reflexivity|].
    cbn [length] in Hlen.
    change (Pickle.load (S (S fuel)) (op :: bs) st) with
      (Pickle.load_op op bs st ≫= fun r : list byte * list pyobj + pyobj =>
       match r with
       | inl (bs'', stack') => Pickle.load (S fuel) bs'' stack'
       | inr v => Ret v
       end).
    change (Pickle.load (S fuel) (op :: bs) st) with
      (Pickle.load_op op bs st ≫= fun r : list byte * list pyobj + pyobj =>
       match r with
       | inl (bs'', stack') => Pickle.load fuel bs'' stack'
       | inr v => Ret v
       end).
    destruct (Pickle.load_op op bs st) as [[[bs' st']|v]|e] eqn:Hop;
      cbn [mbind res_bind]; try reflexivity.
    apply load_op_shrinks in Hop. apply IH. lia.
Qed.

(** Fuel beyond the length of the input changes nothing: [loads] never
    reports the end of input for lack of fuel. *)
Lemma load_enough_fuel (extra : nat) (bs : list byte) (st : list pyobj) :
  Pickle.load (extra + length bs) bs st = Pickle.load (length bs) bs st.
Proof.
  induction extra as [|extra IH]; [reflexivity|].
  cbn [Nat.add]. rewrite load_more_fuel by lia. exact IH.
Qed.

(** ** The two paths that write the board *)

Lemma board_get_Ret (b : Board) (r c : Z) (x : cell) :
  board_get b r c = Ret x ->
  exists j k row,
    Py.norm_index b r = Ret j /\ b !! j = Some row
    /\ Py.norm_index row c = Ret k /\ row !! k = Some x.
Proof.
  unfold board_get.
  destruct (Py.getitem b r) as [row|e] eqn:Hrow; [|discriminate]. cbn.
  intros Hcell.
  apply getitem_Ret in Hrow as (j & Hj & Hlook).
  apply getitem_Ret in Hcell as (k & Hk & Hlook').
  by exists j, k, row.
Qed.

Lemma board_get_intro (b : Board) (r c : Z) (x : cell) (j k : nat) (row : list cell) :
  Py.norm_index b r = Ret j -> b !! j = Some row ->
  Py.norm_index row c = Ret k -> row !! k = Some x ->
  board_get b r c = Ret x.
Proof.
  intros Hj Hrow Hk Hx. unfold board_get, Py.getitem.
  rewrite Hj. cbn [mbind res_bind]. rewrite Hrow. cbn [mbind res_bind].
  rewrite Hk. cbn [mbind res_bind]. by rewrite Hx.
Qed.

(** Writing a cell that reads [None] leaves every cell that holds a mark. *)
Lemma board_set_keeps_marks (b b' : Board) (r0 c0 r c : Z) (v : cell) (m : symbol) :
  board_get b r0 c0 = Ret None ->
  board_set b r0 c0 v = Ret b' ->
  board_get b r c = Ret (Some m) ->
  board_get b' r c = Ret (Some m).
Proof.
  intros (j0 & k0 & row0 & Hj0 & Hrow0 & Hk0 & Hx0)%board_get_Ret Hset
         (j & k & row & Hj & Hrow & Hk & Hx)%board_get_Ret.
  unfold board_set, Py.getitem in Hset.
  rewrite Hj0 in Hset. cbn [mbind res_bind] in Hset.
  rewrite Hrow0 in Hset. cbn [mbind res_bind] in Hset.
  unfold Py.setitem in Hset.
  rewrite Hk0 in Hset. cbn [mbind res_bind] in Hset.
  rewrite Hj0 in Hset. cbn [mbind res_bind] in Hset. injection Hset as <-.
  pose proof (norm_index_lt _ _ _ Hj0) as Hlt0.
  destruct (decide (j = j0)) as [->|Hne].
  - assert (row = row0) as -> by congruence.
    eapply (board_get_intro _ _ _ _ j0 k (<[k0:=v]> row0)).
    + by rewrite (norm_index_length _ b) by apply length_insert.
    + by apply list_lookup_insert_eq.
    + by rewrite (norm_index_length _ row0) by apply length_insert.
    + rewrite list_lookup_insert_ne; [done|]. congruence.
  - eapply (board_get_intro _ _ _ _ j k row); try done.
    + by rewrite (norm_index_length _ b) by apply length_insert.
    + by rewrite list_lookup_insert_ne.
Qed.

(** The click path checks [board[row][col] is None] before it writes: it
    never changes a cell that holds a mark. *)
Lemma on_event_keeps_marks (n : Network) (g g' : game) (ev : event)
    (log : list effect) (r c : Z) (m : symbol) :
  on_event n g ev = Ret (g', log) ->
  board_get (board g) r c = Ret (Some m) ->
  board_get (board g') r c = Ret (Some m).
Proof.
  intros [(_ & -> & _)|(x & y & b' & w & _ & _ & _ & _ & _ & Hget & Hset & _ & -> & _)]%on_event_cases;
    [done|].
  cbn [board]. by eapply board_set_keeps_marks.
Qed.

(** C1: the receive path writes [board[r][c]] without looking at the cell.
    On the joiner's side cell [(1, 1)] holds the joiner's ['O']; a received
    move [(1, 1)] replaces it by ['X']. *)
Theorem received_move_overwrites_mark :
  board (locals joiner_moved) =
    [[Some MarkX; None; None]; [None; Some MarkO; None]; [None; None; None]]
  /\ on_data (locals joiner_moved) (PyTuple [PyInt 1; PyInt 1]) =
     Ret (mkGame [[Some MarkX; None; None]; [None; Some MarkX; None]; [None; None; None]]
                 None true MarkO true,
          [BoardWrite 1 1 MarkX])
  /\ board (locals (run [Recv (Ret (Pickle.dumps (1, 1))); Tick []] joiner_moved)) =
     [[Some MarkX; None; None]; [None; Some MarkX; None]; [None; None; None]].
Proof. vm_compute. auto. Qed.

(** C2: the receive path takes the received coordinates as list subscripts
    as they come.  A received [(3, 0)] raises [IndexError] in the game
    loop, which ends the main thread; a received [(-1, -1)] writes the
    cell [(2, 2)]. *)
Theorem received_move_out_of_range :
  on_data (init_game false) (PyTuple [PyInt 3; PyInt 0]) = Raise IndexError
  /\ main_thread (run [Recv (Ret (Pickle.dumps (3, 0))); Tick []] (init_world false))
     = Some IndexError
  /\ board (locals (run [Recv (Ret (Pickle.dumps (-1, -1))); Tick []] (init_world false)))
     = [[None; None; None]; [None; None; None]; [None; None; Some MarkX]].
Proof. vm_compute. auto. Qed.

(** C3: [sys.exit(1)] at the end of [_receive_loop] is raised in the worker
    thread.  After a zero-length read the task has ended with [SystemExit],
    the game loop is still running, and it goes on applying moves: the
    host's next mouse press is placed and sent, and on the joiner's side a
    move that was queued before the peer closed is applied afterwards. *)
Theorem receive_task_exit_does_not_stop_game :
  let closed := run [Recv (Ret [])] (init_world true) in
  let after := run [Tick [MOUSEBUTTONDOWN 0 0]] closed in
  let queued := run [Recv (Ret (Pickle.dumps (0, 0))); Recv (Ret []); Tick []]
                    (init_world false) in
  receive_loop [Ret []] [] = ([], Some (SystemExit 1))
  /\ worker closed = Some (SystemExit 1)
  /\ main_thread closed = None
  /\ running (locals closed) = true
  /\ main_thread after = None
  /\ board (locals after) =
     [[Some MarkX; None; None]; [None; None; None]; [None; None; None]]
  /\ trace after = [BoardWrite 0 0 MarkX; SockWrite (Pickle.dumps (0, 0))]
  /\ worker queued = Some (SystemExit 1)
  /\ trace queued = [BoardWrite 0 0 MarkX].
Proof. vm_compute. repeat split; reflexivity. Qed.

(** ** The receive task and the board shape over a run *)

(** A zero-length read, a failing [recv] and an undecodable packet all end
    [_receive_loop] with [sys.exit(1)], and nothing is enqueued. *)
Lemma receive_iter_stops (r : res (list byte)) (q : list pyobj) :
  r = Ret []
  \/ (exists e, r = Raise e /\ is_Exception e = true)
  \/ (exists packet e, r = Ret packet /\ Pickle.loads packet = Raise e
                       /\ is_Exception e = true) ->
  receive_iter r q = (q, Some (SystemExit 1)).
Proof.
  intros [->|[(e & -> & He)|(packet & e & -> & Hload & He)]]; cbn.
  - reflexivity.
  - by rewrite He.
  - destruct packet; [reflexivity|]. by rewrite Hload, He.
Qed.

(** Once the task has ended, the queue gets nothing more. *)
Lemma worker_ended_queue (r : res (list byte)) (w : world) (e : exn) :
  worker w = Some e -> step (Recv r) w = w.
Proof. intros He. cbn. by rewrite He. Qed.

Lemma on_event_3x3 (n : Network) (g g' : game) (ev : event) (log : list effect) :
  is_3x3 (board g) -> on_event n g ev = Ret (g', log) -> is_3x3 (board g').
Proof.
  intros Hb [(_ & -> & _)|(x & y & b' & w & _ & _ & _ & _ & _ & _ & Hset & _ & -> & _)]%on_event_cases;
    [done|].
  cbn [board]. by eapply board_set_3x3.
Qed.

Lemma on_events_3x3 (n : Network) (evs : list event) (g g' : game) (log : list effect) :
  is_3x3 (board g) -> on_events n g evs = Ret (g', log) -> is_3x3 (board g').
Proof.
  revert g g' log. induction evs as [|ev evs IH]; intros g g' log Hb; cbn [on_events].
  - by intros [= <- _].
  - destruct (on_event n g ev) as [[g1 log1]|e] eqn:H1; [|discriminate].
    cbn [mbind res_bind].
    destruct (on_events n g1 evs) as [[g2 log2]|e] eqn:H2; [|discriminate].
    cbn [mbind res_bind]. intros [= <- _].
    eapply IH; [|done]. by eapply on_event_3x3.
Qed.

Lemma on_data_3x3 (g g' : game) (data : pyobj) (log : list effect) :
  is_3x3 (board g) -> on_data g data = Ret (g', log) -> is_3x3 (board g').
Proof.
  intros Hb [(_ & ->)|(ri & ci & row & row' & b' & w & _ & _ & _ & Hget & Hrow & Hset & _ & -> & _)]%on_data_cases;
    [done|].
  cbn [board]. by eapply write_cell_3x3.
Qed.

Lemma step_3x3 (a : action) (w : world) :
  is_3x3 (board (locals w)) -> is_3x3 (board (locals (step a w))).
Proof.
  intros Hb. destruct a as [evs|r|]; cbn [step].
  - destruct (main_thread w); [done|].
    destruct (running (locals w)); [|done].
    destruct (tick evs (net w) (locals w)) as [[[g n'] log]|e] eqn:Htick; [|done].
    cbn [locals]. unfold tick in Htick.
    destruct (on_events (net w) (locals w) evs) as [[g1 log1]|e] eqn:H1; [|discriminate].
    cbn [mbind res_bind] in Htick.
    destruct (receive (net w)) as [data n1].
    destruct (on_data g1 data) as [[g2 log2]|e] eqn:H2; [|discriminate].
    cbn [mbind res_bind] in Htick. injection Htick as <- _ _.
    eapply on_data_3x3; [|done]. by eapply on_events_3x3.
  - destruct (worker w); [done|].
    by destruct (receive_iter r (queue (net w))).
  - done.
Qed.

(** Every board the process ever holds is 3x3. *)
Lemma run_3x3 (server : bool) (acts : list action) :
  is_3x3 (board (locals (run acts (init_world server)))).
Proof.
  assert (Hgen : forall w, is_3x3 (board (locals w)) ->
                           is_3x3 (board (locals (run acts w)))).
  { induction acts as [|a acts IH]; intros w Hb; [done|].
    rewrite run_cons. apply IH. by apply step_3x3. }
  apply Hgen. apply is_3x3_intro.
Qed.

(** ** The receive path on arbitrary coordinates *)

Lemma norm_index_outside {A} (l : list A) (i : Z) :
  i < - Z.of_nat (length l) \/ Z.of_nat (length l) <= i ->
  Py.norm_index l i = Raise IndexError.
Proof.
  intros Hi. unfold Py.norm_index.
  destruct (i <? 0) eqn:Hneg.
  - replace ((i + Z.of_nat (length l) <? 0) || (Z.of_nat (length l) <=? i + Z.of_nat (length l)))
      with true by lia. reflexivity.
  - replace ((i <? 0) || (Z.of_nat (length l) <=? i)) with true by lia. reflexivity.
Qed.

Lemma getitem_inside {A} (l : list A) (i : Z) :
  - Z.of_nat (length l) <= i < Z.of_nat (length l) ->
  exists a, Py.getitem l i = Ret a /\ a ∈ l.
Proof.
  intros Hi. unfold Py.getitem, Py.norm_index.
  destruct (i <? 0) eqn:Hneg.
  - replace ((i + Z.of_nat (length l) <? 0) || (Z.of_nat (length l) <=? i + Z.of_nat (length l)))
      with false by lia. cbn [mbind res_bind].
    destruct (lookup_lt_is_Some_2 l (Z.to_nat (i + Z.of_nat (length l)))) as [a Ha]; [lia|].
    rewrite Ha. exists a. split; [done|]. by eapply list_elem_of_lookup_2.
  - replace ((i <? 0) || (Z.of_nat (length l) <=? i)) with false by lia.
    cbn [mbind res_bind].
    destruct (lookup_lt_is_Some_2 l (Z.to_nat i)) as [a Ha]; [lia|].
    rewrite Ha. exists a. split; [done|]. by eapply list_elem_of_lookup_2.
Qed.

(** In the joiner's or host's [OpponentTurn], coordinates outside
    [-3 .. 2] end the game loop with [IndexError]. *)
Lemma on_data_outside (g : game) (ri ci : Z) :
  is_3x3 (board g) -> is_my_turn g = false -> winner g = None ->
  ri < -3 \/ 2 < ri \/ ci < -3 \/ 2 < ci ->
  on_data g (PyTuple [PyInt ri; PyInt ci]) = Raise IndexError.
Proof.
  intros [Hlen Hrows] Hturn Hwin Hout. unfold on_data.
  rewrite Hturn, Hwin. loop_cbn.
  destruct (decide (ri < -3 \/ 2 < ri)) as [Hr|Hr].
  - unfold Py.getitem.
    rewrite (norm_index_outside (board g) ri) by (rewrite Hlen; lia). reflexivity.
  - destruct (getitem_inside (board g) ri) as (row & -> & Hin); [rewrite Hlen; lia|].
    loop_cbn.
    assert (length row = 3%nat) as Hrow
      by (by eapply (proj1 (Forall_forall _ _) Hrows)).
    unfold Py.setitem.
    rewrite (norm_index_outside row ci) by (rewrite Hrow; lia). reflexivity.
Qed.

(** Inside [-3 .. 2] the received cell is written whatever it holds. *)
Lemma on_data_inside (g : game) (ri ci : Z) :
  is_3x3 (board g) -> is_my_turn g = false -> winner g = None ->
  -3 <= ri <= 2 -> -3 <= ci <= 2 ->
  exists b' w,
    board_set (board g) ri ci (Some (other_mark (mark g))) = Ret b'
    /\ on_data g (PyTuple [PyInt ri; PyInt ci]) =
       Ret (mkGame b' w true (mark g) (running g),
            [BoardWrite ri ci (other_mark (mark g))]).
Proof.
  intros Hb Hturn Hwin Hr Hc. pose proof Hb as [Hlen Hrows].
  destruct (getitem_inside (board g) ri) as (row & Hget & Hin); [rewrite Hlen; lia|].
  assert (length row = 3%nat) as Hrow
    by (by eapply (proj1 (Forall_forall _ _) Hrows)).
  destruct (getitem_inside row ci) as (c & Hcell & _); [rewrite Hrow; lia|].
  destruct (getitem_setitem _ _ _ (Some (other_mark (mark g))) Hcell) as [row' Hrow'].
  destruct (getitem_setitem _ _ _ row' Hget) as [b' Hset].
  destruct (check_winner_total b') as [w Hw]; [by eapply write_cell_3x3|].
  exists b', w. split.
  - unfold board_set. rewrite Hget. loop_cbn. rewrite Hrow'. loop_cbn. done.
  - unfold on_data. rewrite Hturn, Hwin. loop_cbn.
    rewrite Hget. loop_cbn. rewrite Hrow'. loop_cbn. rewrite Hset. loop_cbn.
    by rewrite Hw.
Qed.

(** ** One process under well-formed input *)

Lemma frozen_refl (g : game) : frozen g g.
Proof. by split_and!. Qed.

Lemma frozen_trans (g g1 g2 : game) : frozen g g1 -> frozen g1 g2 -> frozen g g2.
Proof. intros (? & ? & ? & ?) (? & ? & ? & ?). split_and!; congruence. Qed.

(** Out of turn, or after the end, the events of an iteration change at
    most [running]. *)
Lemma on_events_idle (n : Network) (evs : list event) (g : game) :
  is_my_turn g = false \/ winner g <> None ->
  exists g', on_events n g evs = Ret (g', []) /\ frozen g g'.
Proof.
  revert g. induction evs as [|ev evs IH]; intros g Hidle; cbn [on_events].
  - exists g. split; [done|apply frozen_refl].
  - assert (exists g1, on_event n g ev = Ret (g1, []) /\ frozen g g1) as (g1 & -> & Hf1).
    { destruct ev as [|x y|]; loop_cbn.
      - eexists. split; [done|by split_and!].
      - replace (is_my_turn g && is_None (winner g)) with false.
        + exists g. split; [done|apply frozen_refl].
        + destruct Hidle as [->|Hw]; [done|].
          destruct (winner g); [by rewrite andb_false_r|done].
      - exists g. split; [done|apply frozen_refl]. }
    loop_cbn.
    destruct (IH g1) as (g2 & -> & Hf2).
    { destruct Hf1 as (_ & Hw & Ht & _). rewrite Hw, Ht. exact Hidle. }
    loop_cbn. exists g2. split; [done|by eapply frozen_trans].
Qed.

(** A mouse press inside the window on a 3x3 board with the connection up:
    nothing happens, or one local move is made and sent. *)
Lemma on_event_honest (n : Network) (g : game) (ev : event) :
  in_window ev = true -> is_3x3 (board g) -> conn_up n = true ->
  exists g' log,
    on_event n g ev = Ret (g', log)
    /\ ((log = [] /\ frozen g g') \/ local_move g g' log).
Proof.
  intros Hwin Hb Hup.
  destruct ev as [|x y|].
  - eexists _, []. split; [reflexivity|]. left. by split_and!.
  - cbn in Hwin. loop_cbn.
    destruct (is_my_turn g) eqn:Hturn; loop_cbn;
      [|exists g, []; split; [done|left; split; [done|apply frozen_refl]]].
    destruct (winner g) as [o|] eqn:Hw; loop_cbn;
      [exists g, []; split; [done|left; split; [done|apply frozen_refl]]|].
    destruct (y <? HEIGHT) eqn:Hy;
      [|exists g, []; split; [done|left; split; [done|apply frozen_refl]]].
    destruct (click_cell_range x y) as [Hr Hc]; [lia|lia|].
    destruct (click_cell x y) as [row col]. cbn [fst snd] in Hr, Hc.
    pose proof (board_get_3x3 _ _ _ Hb Hr Hc) as Hget. rewrite Hget. loop_cbn.
    destruct (cell_at (board g) (Z.to_nat row) (Z.to_nat col)) as [m|] eqn:Hcell;
      loop_cbn;
      [exists g, []; split; [done|left; split; [done|apply frozen_refl]]|].
    destruct (board_get_set _ _ _ _ (Some (mark g)) Hget) as [b' Hset].
    rewrite Hset. loop_cbn. unfold send, sendall. rewrite Hup. loop_cbn.
    destruct (check_winner_total b') as [w Hcw]; [by eapply board_set_3x3|].
    rewrite Hcw. loop_cbn.
    eexists _, _. split; [reflexivity|]. right.
    exists row, col. split_and!; try done; lia.
  - eexists _, []. split; [reflexivity|]. left. by split_and!.
Qed.

Lemma local_move_frozen_l (g g0 g' : game) (log : list effect) :
  frozen g0 g -> local_move g g' log -> local_move g0 g' log.
Proof.
  intros (Hb & Hw & Ht & Hm) (r & c & Hr & Hc & Ht' & Hw' & Hget & Hset & Hcw & Ht'' & Hm' & ->).
  exists r, c. rewrite <- Hb, <- Hw, <- Ht, <- Hm. split_and!; try done; lia.
Qed.

Lemma local_move_frozen_r (g g' g2 : game) (log : list effect) :
  local_move g g' log -> frozen g' g2 -> local_move g g2 log.
Proof.
  intros (r & c & Hr & Hc & Ht' & Hw' & Hget & Hset & Hcw & Ht'' & Hm' & ->)
         (Hb & Hw & Ht & Hm).
  exists r, c. rewrite Hb, Hw, Ht, Hm. split_and!; try done; lia.
Qed.

Lemma on_events_honest (n : Network) (evs : list event) (g : game) :
  forallb in_window evs = true -> is_3x3 (board g) -> conn_up n = true ->
  exists g' log,
    on_events n g evs = Ret (g', log)
    /\ ((log = [] /\ frozen g g') \/ local_move g g' log).
Proof.
  revert g. induction evs as [|ev evs IH]; intros g Hwin Hb Hup; cbn [on_events].
  - exists g, []. split; [done|]. left. split; [done|apply frozen_refl].
  - cbn [forallb] in Hwin. apply andb_true_iff in Hwin as [Hev Hevs].
    destruct (on_event_honest n g ev Hev Hb Hup) as (g1 & log1 & -> & Hcase).
    loop_cbn. destruct Hcase as [[-> Hf1]|Hmove].
    + destruct (IH g1 Hevs) as (g2 & log2 & -> & Hcase2); [|done|].
      { destruct Hf1 as (-> & _). done. }
      loop_cbn. exists g2, log2. split; [done|].
      destruct Hcase2 as [[-> Hf2]|Hmove2].
      * left. split; [done|by eapply frozen_trans].
      * right. by eapply local_move_frozen_l.
    + destruct (on_events_idle n evs g1) as (g2 & -> & Hf2).
      { left. by destruct Hmove as (r & c & _ & _ & _ & _ & _ & _ & _ & ? & _). }
      loop_cbn. exists g2, log1. rewrite app_nil_r. split; [done|].
      right. by eapply local_move_frozen_r.
Qed.

(** A received move for a cell that can be written is applied, and
    [winner] is recomputed from the new board. *)
Lemma on_data_applies (g : game) (r c : Z) (b' : list (list cell)) :
  is_3x3 (board g) -> is_my_turn g = false -> winner g = None ->
  board_set (board g) r c (Some (other_mark (mark g))) = Ret b' ->
  exists w,
    check_winner b' = Ret w
    /\ on_data g (PyTuple [PyInt r; PyInt c]) =
       Ret (mkGame b' w true (mark g) (running g),
            [BoardWrite r c (other_mark (mark g))]).
Proof.
  intros Hb Hturn Hwin Hset.
  destruct (check_winner_total b') as [w Hw]; [by eapply board_set_3x3|].
  exists w. split; [done|].
  unfold on_data. rewrite Hturn, Hwin. loop_cbn.
  unfold board_set in Hset.
  destruct (Py.getitem (board g) r) as [row|e]; [|discriminate].
  loop_cbn. cbn [mbind res_bind] in Hset.
  destruct (Py.setitem row c (Some (other_mark (mark g)))) as [row'|e]; [|discriminate].
  loop_cbn. cbn [mbind res_bind] in Hset. rewrite Hset. loop_cbn.
  by rewrite Hw.
Qed.

Lemma new_trace_app (w w' : world) (log : list effect) :
  trace w' = trace w ++ log -> new_trace w w' = log.
Proof. intros Ht. unfold new_trace. rewrite Ht. apply drop_app_length. Qed.

Lemma new_trace_same (w : world) : new_trace w w = [].
Proof. apply new_trace_app. by rewrite app_nil_r. Qed.

Lemma tick_quiet (n : Network) (evs : list event) (g : game) :
  queue n = [] ->
  forallb in_window evs = true -> is_3x3 (board g) -> conn_up n = true ->
  exists g' log,
    tick evs n g = Ret (g', n, log)
    /\ ((log = [] /\ frozen g g') \/ local_move g g' log).
Proof.
  intros Hq Hwin Hb Hup.
  destruct (on_events_honest n evs g Hwin Hb Hup) as (g1 & log1 & Hev & Hcase).
  exists g1, log1. split; [|done].
  unfold tick, receive. rewrite Hev, Hq. loop_cbn.
  unfold on_data. loop_cbn. by rewrite app_nil_r.
Qed.

Lemma tick_receives (n : Network) (evs : list event) (g : game) (r c : Z)
    (b' : list (list cell)) :
  queue n = [PyTuple [PyInt r; PyInt c]] ->
  is_3x3 (board g) -> is_my_turn g = false -> winner g = None ->
  board_set (board g) r c (Some (other_mark (mark g))) = Ret b' ->
  exists w g',
    check_winner b' = Ret w
    /\ tick evs n g = Ret (g', mkNetwork (is_server n) (conn_up n) [],
                           [BoardWrite r c (other_mark (mark g))])
    /\ board g' = b' /\ winner g' = w /\ is_my_turn g' = true /\ mark g' = mark g.
Proof.
  intros Hq Hb Hturn Hwin Hset.
  destruct (on_events_idle n evs g) as (g1 & Hev & (Hb1 & Hw1 & Ht1 & Hm1)); [by left|].
  destruct (on_data_applies g1 r c b') as (w & Hw & Hdata); try congruence.
  exists w, (mkGame b' w true (mark g1) (running g1)).
  split; [done|]. split; [|by split_and!].
  unfold tick, receive. rewrite Hev, Hq. loop_cbn. rewrite Hdata. loop_cbn.
  by rewrite Hm1.
Qed.

Lemma step_tick_ret (w : world) (evs : list event) (g' : game) (n' : Network)
    (log : list effect) :
  main_thread w = None -> running (locals w) = true ->
  tick evs (net w) (locals w) = Ret (g', n', log) ->
  step (Tick evs) w = mkWorld g' n' None (worker w) (trace w ++ log).
Proof. intros Hm Hr Ht. cbn [step]. by rewrite Hm, Hr, Ht. Qed.

Lemma step_tick_stopped (w : world) (evs : list event) :
  running (locals w) = false -> step (Tick evs) w = w.
Proof. intros Hr. cbn [step]. rewrite Hr. by destruct (main_thread w). Qed.

(** ** The two processes stay in step *)

Lemma link_sym (sa : bool) (a b : world) (ab ba : list (list byte)) :
  link sa a b ab ba -> link (negb sa) b a ba ab.
Proof.
  intros (Ha & Hb & Hcase). split; [done|]. split; [by rewrite negb_involutive|].
  destruct Hcase as [(-> & -> & Hqa & Hqb & Hbd & Hw & Ht)|[H|H]].
  - left. split_and!; try done. rewrite Ht. by destruct (is_my_turn (locals a)).
  - right. by right.
  - right. by left.
Qed.

Lemma healthy_marks (sa : bool) (a b : world) :
  healthy sa a -> healthy (negb sa) b ->
  other_mark (mark (locals a)) = mark (locals b).
Proof.
  intros (_ & _ & _ & -> & _) (_ & _ & _ & -> & _). by destruct sa.
Qed.

(** One iteration of [a]'s loop: what it sends goes on the wire to [b]. *)
Lemma link_loop (sa : bool) (a b : world) (ab ba : list (list byte)) (evs : list event) :
  link sa a b ab ba -> forallb in_window evs = true ->
  link sa (step (Tick evs) a) b
       (ab ++ sent_packets (new_trace a (step (Tick evs) a))) ba.
Proof.
  intros (Ha & Hb & Hcase) Hwin.
  destruct (running (locals a)) eqn:Hrun;
    [|rewrite step_tick_stopped, new_trace_same, app_nil_r by done; by split_and!].
  pose proof Ha as (Hmain & Hwork & Hup & Hmark & H3 & Hcw).
  assert (Hquiet : queue (net a) = [] ->
    exists g' log,
      step (Tick evs) a = mkWorld g' (net a) None (worker a) (trace a ++ log)
      /\ ((log = [] /\ frozen (locals a) g') \/ local_move (locals a) g' log)).
  { intros Hq.
    destruct (tick_quiet (net a) evs (locals a) Hq Hwin H3 Hup) as (g' & log & Ht & Hc).
    exists g', log. split; [by apply step_tick_ret|done]. }
  assert (Hfrozen : forall g', frozen (locals a) g' ->
            healthy sa (mkWorld g' (net a) None (worker a) (trace a ++ []))).
  { intros g' (Hb' & Hw' & Ht' & Hm'). unfold healthy. cbn.
    rewrite Hb', Hw', Hm'. close_conj. }
  destruct Hcase as [(-> & -> & Hqa & Hqb & Hbd & Hw & Ht)|[(-> & r & c & Haw)|(-> & r & c & Haw)]].
  - destruct (Hquiet Hqa) as (g' & log & Hstep & [[-> Hf]|Hmove]).
    + rewrite Hstep, (new_trace_app _ _ []) by done. cbn [sent_packets omap app].
      split; [by apply Hfrozen|]. split; [done|]. left.
      destruct Hf as (Hb' & Hw' & Ht' & Hm'). unfold settled. cbn.
      rewrite Hb', Hw', Ht'. close_conj.
    + rewrite Hstep, (new_trace_app _ _ log) by done.
      destruct Hmove as (r & c & Hr & Hc & Hturn & Hwin' & Hget & Hset & Hcw' & Hturn' & Hm' & ->).
      cbn [sent_packets omap app].
      split; [|split; [done|]].
      * unfold healthy. cbn. rewrite Hm'. split_and!; try done.
        by eapply board_set_3x3.
      * right. left. split; [done|]. exists r, c. unfold awaiting. cbn.
        rewrite Hm', <- Hbd, <- Hw, Ht, Hturn. close_conj.
  - destruct Haw as (Hr & Hc & Hta & Htb & Hwb & Hget & Hset & Hqa & Hwire).
    destruct (Hquiet Hqa) as (g' & log & Hstep & [[-> Hf]|Hmove]).
    + rewrite Hstep, (new_trace_app _ _ []) by done.
      change (sent_packets []) with (@nil (list byte)). rewrite (app_nil_r ab).
      split; [by apply Hfrozen|]. split; [done|]. right. left. split; [done|].
      exists r, c. destruct Hf as (Hb' & Hw' & Ht' & Hm'). unfold awaiting. cbn.
      rewrite Hb', Ht', Hm'. close_conj.
    + destruct Hmove as (? & ? & _ & _ & Hturn & _). congruence.
  - destruct Haw as (Hr & Hc & Htb & Hta & Hwa & Hget & Hset & Hqb & Hwire).
    destruct Hwire as [[-> Hqa]|[-> Hqa]].
    + destruct (Hquiet Hqa) as (g' & log & Hstep & [[-> Hf]|Hmove]).
      * rewrite Hstep, (new_trace_app _ _ []) by done. cbn [sent_packets omap app].
        split; [by apply Hfrozen|]. split; [done|]. right. right. split; [done|].
        exists r, c. destruct Hf as (Hb' & Hw' & Ht' & Hm'). unfold awaiting. cbn.
        rewrite Hb', Hw', Ht'. close_conj.
      * destruct Hmove as (? & ? & _ & _ & Hturn & _). congruence.
    + assert (Hom : other_mark (mark (locals a)) = mark (locals b))
        by by eapply healthy_marks.
      rewrite <- Hom in Hset.
      destruct (tick_receives (net a) evs (locals a) r c _ Hqa H3 Hta Hwa Hset)
        as (w & g' & Hw & Htick & Hb' & Hw' & Ht' & Hm').
      rewrite (step_tick_ret _ _ _ _ _ Hmain Hrun Htick).
      rewrite (new_trace_app _ _ [BoardWrite r c (other_mark (mark (locals a)))]) by done.
      cbn [sent_packets omap app].
      pose proof Hb as (_ & _ & _ & _ & H3b & Hcwb).
      assert (w = winner (locals b)) as -> by congruence.
      split; [|split; [done|]].
      * unfold healthy. cbn. rewrite Hb', Hw', Hm'. close_conj.
      * left. unfold settled. cbn. rewrite Hb', Hw', Ht', Htb. close_conj.
Qed.

(** [a]'s receive task reads the next packet that [b] sent. *)
Lemma link_deliver (sa : bool) (a b : world) (ab ba : list (list byte))
    (p : list byte) (rest : list (list byte)) :
  link sa a b ab ba -> ba = p :: rest ->
  link sa (step (Recv (Ret p)) a) b ab rest.
Proof.
  intros (Ha & Hb & Hcase) ->.
  destruct Hcase as [(_ & [=] & _)|[([=] & _)|(-> & r & c & Haw)]].
  destruct Haw as (Hr & Hc & Htb & Hta & Hwa & Hget & Hset & Hqb & Hwire).
  destruct Hwire as [[[= -> ->] Hqa]|[[=] _]].
  pose proof Ha as (Hmain & Hwork & Hup & Hmark & H3 & Hcw).
  assert (Hstep : step (Recv (Ret (Pickle.dumps (r, c)))) a =
                  mkWorld (locals a)
                          (mkNetwork (is_server (net a)) (conn_up (net a))
                                     [PyTuple [PyInt r; PyInt c]])
                          (main_thread a) None (trace a)).
  { cbn [step]. rewrite Hwork, Hqa. unfold receive_iter.
    rewrite loads_dumps_small by lia. rewrite dumps_small by lia. reflexivity. }
  rewrite Hstep. split; [|split; [done|]].
  - unfold healthy. cbn. close_conj.
  - right. right. split; [done|]. exists r, c. unfold awaiting. cbn.
    close_conj.
Qed.

Lemma in_sync_init : in_sync duo_init.
Proof.
  assert (Hh : forall sv, healthy sv (init_world sv)).
  { intros sv. unfold healthy. cbn. split_and!; try done. apply is_3x3_intro. }
  unfold in_sync, link, duo_init. cbn [host joiner to_joiner to_host].
  split; [apply Hh|]. split; [apply Hh|].
  left. unfold settled. cbn. by split_and!.
Qed.

Lemma in_sync_step (a : duo_action) (d : duo) :
  honest a = true -> in_sync d -> in_sync (duo_step a d).
Proof.
  unfold in_sync. intros Hh Hl.
  destruct a as [[|] evs|[|]]; cbn [duo_step]; cbn [honest] in Hh.
  - cbn [host joiner to_joiner to_host]. apply link_loop; [exact Hl|exact Hh].
  - cbn [host joiner to_joiner to_host].
    apply (link_sym false). apply link_loop; [|exact Hh].
    apply (link_sym true). exact Hl.
  - destruct (to_host d) as [|p rest] eqn:Hw; [rewrite Hw; exact Hl|].
    cbn [host joiner to_joiner to_host]. eapply link_deliver; [exact Hl|reflexivity].
  - destruct (to_joiner d) as [|p rest] eqn:Hw; [rewrite Hw; exact Hl|].
    cbn [host joiner to_joiner to_host].
    apply (link_sym false). eapply link_deliver; [|reflexivity].
    apply (link_sym true). exact Hl.
Qed.

Lemma in_sync_run (acts : list duo_action) (d : duo) :
  forallb honest acts = true -> in_sync d -> in_sync (duo_run acts d).
Proof.
  revert d. induction acts as [|a acts IH]; intros d Hh Hd; [assumption|].
  cbn [forallb] in Hh. apply andb_true_iff in Hh as [Ha Hacts].
  change (duo_run (a :: acts) d) with (duo_run acts (duo_step a d)).
  apply IH; [assumption|]. apply in_sync_step; assumption.
Qed.

(** X1: two processes that start as host and joiner on one connection,
    fed mouse positions inside the window, never lose a thread to an
    exception; and whenever no move is on the wire or in a queue, the two
    boards are equal, the two outcomes are equal, and exactly one side has
    [is_my_turn] set. *)
Theorem peers_agree (acts : list duo_action) :
  forallb honest acts = true ->
  let d := duo_run acts duo_init in
  main_thread (host d) = None /\ main_thread (joiner d) = None
  /\ worker (host d) = None /\ worker (joiner d) = None
  /\ (to_joiner d = [] -> to_host d = [] ->
      queue (net (host d)) = [] -> queue (net (joiner d)) = [] ->
      board (locals (host d)) = board (locals (joiner d))
      /\ winner (locals (host d)) = winner (locals (joiner d))
      /\ is_my_turn (locals (joiner d)) = negb (is_my_turn (locals (host d)))).
Proof.
  intros Hh d.
  pose proof (in_sync_run acts duo_init Hh in_sync_init) as (Ha & Hb & Hcase).
  fold d in Ha, Hb, Hcase.
  destruct Ha as (Hma & Hwa & _), Hb as (Hmb & Hwb & _).
  split_and!; try done.
  intros Hj Ht Hqh Hqj.
  destruct Hcase as [(_ & _ & _ & _ & ? & ? & ?)|[(_ & r & c & Haw)|(_ & r & c & Haw)]];
    [done| |];
    destruct Haw as (_ & _ & _ & _ & _ & _ & _ & _ & [[Hw _]|[_ Hq]]);
    congruence.
Qed.

Lemma peers_agree_witness :
  let d := duo_run [Loop Host [MOUSEBUTTONDOWN 300 300]; Deliver Joiner;
                    Loop Joiner [MOUSEBUTTONDOWN 10 10]]
                   duo_init in
  board (locals (host d)) = board (locals (joiner d))
  /\ board (locals (joiner d)) =
     [[None; None; None]; [None; Some MarkX; None]; [None; None; None]].
Proof.
  cbn zeta.
  destruct (peers_agree [Loop Host [MOUSEBUTTONDOWN 300 300]; Deliver Joiner;
                         Loop Joiner [MOUSEBUTTONDOWN 10 10]])
    as (_ & _ & _ & _ & Hq); [reflexivity|].
  destruct Hq as (Hb & _); [reflexivity..|].
  split; [exact Hb|]. vm_compute. reflexivity.
Defined.

(** X2: in such a run at most one move is under way at any time, counting
    both wires and both queues; a move waiting in a queue names a cell in
    range that is empty on the receiver's board, and the receiver is
    waiting for it (not its turn, no outcome yet), so the next iteration
    of its loop applies it; and the sender's board is the receiver's board
    with that one cell written. *)
Theorem pending_move_is_legal (acts : list duo_action) :
  forallb honest acts = true ->
  let d := duo_run acts duo_init in
  (length (to_joiner d) + length (to_host d)
   + length (queue (net (host d))) + length (queue (net (joiner d))) <= 1)%nat
  /\ (forall m rest, queue (net (joiner d)) = m :: rest ->
        exists r c, m = PyTuple [PyInt r; PyInt c]
          /\ 0 <= r <= 2 /\ 0 <= c <= 2
          /\ is_my_turn (locals (joiner d)) = false
          /\ winner (locals (joiner d)) = None
          /\ board_get (board (locals (joiner d))) r c = Ret None
          /\ board_set (board (locals (joiner d))) r c (Some MarkX)
             = Ret (board (locals (host d))))
  /\ (forall m rest, queue (net (host d)) = m :: rest ->
        exists r c, m = PyTuple [PyInt r; PyInt c]
          /\ 0 <= r <= 2 /\ 0 <= c <= 2
          /\ is_my_turn (locals (host d)) = false
          /\ winner (locals (host d)) = None
          /\ board_get (board (locals (host d))) r c = Ret None
          /\ board_set (board (locals (host d))) r c (Some MarkO)
             = Ret (board (locals (joiner d)))).
Proof.
  intros Hh d.
  pose proof (in_sync_run acts duo_init Hh in_sync_init) as (Ha & Hb & Hcase).
  fold d in Ha, Hb, Hcase.
  destruct Ha as (_ & _ & _ & Hmh & _), Hb as (_ & _ & _ & Hmj & _).
  cbn in Hmh, Hmj.
  destruct Hcase as [(-> & -> & -> & -> & _)|[(-> & r & c & Haw)|(-> & r & c & Haw)]].
  - split_and!; [cbn; lia|discriminate..].
  - destruct Haw as (Hr & Hc & Hta & Htb & Hwb & Hget & Hset & -> & [[-> ->]|[-> ->]]).
    + split_and!; [cbn; lia|discriminate..].
    + split_and!; [cbn; lia| |discriminate].
      intros m rest [= <- <-]. exists r, c. rewrite <- Hmh. close_conj.
  - destruct Haw as (Hr & Hc & Hta & Htb & Hwb & Hget & Hset & -> & [[-> ->]|[-> ->]]).
    + split_and!; [cbn; lia|discriminate..].
    + split_and!; [cbn; lia|discriminate|].
      intros m rest [= <- <-]. exists r, c. rewrite <- Hmj. close_conj.
Qed.

Lemma pending_move_is_legal_witness :
  let d := duo_run [Loop Host [MOUSEBUTTONDOWN 300 300]; Deliver Joiner] duo_init in
  queue (net (joiner d)) = [PyTuple [PyInt 1; PyInt 1]]
  /\ board_get (board (locals (joiner d))) 1 1 = Ret None.
Proof.
  cbn zeta.
  destruct (pending_move_is_legal [Loop Host [MOUSEBUTTONDOWN 300 300]; Deliver Joiner])
    as (_ & Hj & _); [reflexivity|].
  destruct (Hj (PyTuple [PyInt 1; PyInt 1]) []) as (r & c & Hm & _ & _ & _ & _ & Hget & _);
    [reflexivity|].
  injection Hm as <- <-. split; [reflexivity|exact Hget].
Defined.

(** ** Invariants of one process *)

Lemma on_events_cases (n : Network) (evs : list event) (g g' : game) (log : list effect) :
  on_events n g evs = Ret (g', log) ->
  mark g' = mark g
  /\ (check_winner (board g) = Ret (winner g) ->
      check_winner (board g') = Ret (winner g')).
Proof.
  revert g g' log. induction evs as [|ev evs IH]; intros g g' log; cbn [on_events].
  - by intros [= <- _].
  - destruct (on_event n g ev) as [[g1 log1]|e] eqn:H1; [|discriminate].
    cbn [mbind res_bind].
    destruct (on_events n g1 evs) as [[g2 log2]|e] eqn:H2; [|discriminate].
    cbn [mbind res_bind]. intros [= <- _].
    destruct (IH _ _ _ H2) as (Hm2 & Hc2).
    apply on_event_cases in H1
      as [(_ & Hb & Hw & _ & Hm & _)|(x & y & b' & w & _ & _ & _ & _ & _ & _ & _ & Hcw & -> & _)].
    + split; [congruence|]. intros Hc. apply Hc2. by rewrite Hb, Hw.
    + split; [by rewrite Hm2|]. intros _. by apply Hc2.
Qed.

Lemma tick_cases (evs : list event) (n n' : Network) (g g' : game) (log : list effect) :
  tick evs n g = Ret (g', n', log) ->
  mark g' = mark g
  /\ (check_winner (board g) = Ret (winner g) ->
      check_winner (board g') = Ret (winner g'))
  /\ n' = mkNetwork (is_server n) (conn_up n) (tail (queue n)).
Proof.
  unfold tick.
  destruct (on_events n g evs) as [[g1 log1]|e] eqn:H1; [|discriminate].
  cbn [mbind res_bind].
  destruct (receive n) as [data n1] eqn:Hrecv.
  destruct (on_data g1 data) as [[g2 log2]|e] eqn:H2; [|discriminate].
  cbn [mbind res_bind]. intros [= <- <- _].
  destruct (on_events_cases _ _ _ _ _ H1) as (Hm1 & Hc1).
  assert (Hn : n1 = mkNetwork (is_server n) (conn_up n) (tail (queue n))).
  { unfold receive in Hrecv. destruct n as [sv up [|d q]]; cbn in *; congruence. }
  apply on_data_cases in H2
    as [(_ & ->)|(ri & ci & row & row' & b' & w & _ & _ & _ & _ & _ & _ & Hcw & -> & _)].
  - by split_and!.
  - by split_and!.
Qed.

Lemma full_board_over (b : list (list cell)) (w : option outcome) :
  is_3x3 b -> board_full b = true -> check_winner b = Ret w -> w <> None.
Proof.
  intros Hb Hfull. rewrite (check_winner_3x3 _ Hb), Hfull.
  destruct (list_find line_won (spec_lines b)) as [[i l]|] eqn:Hfind.
  - apply list_find_Some in Hfind as (_ & [m Hm] & _).
    unfold line_won_by in Hm. subst l. by intros [= <-].
  - by intros [= <-].
Qed.

Lemma step_consistent (a : action) (w : world) :
  check_winner (board (locals w)) = Ret (winner (locals w)) ->
  check_winner (board (locals (step a w))) = Ret (winner (locals (step a w)))
  /\ mark (locals (step a w)) = mark (locals w).
Proof.
  intros Hc. destruct a as [evs|r|]; cbn [step].
  - destruct (main_thread w); [done|].
    destruct (running (locals w)); [|done].
    destruct (tick evs (net w) (locals w)) as [[[g n'] log]|e] eqn:Htick; [|done].
    cbn [locals]. destruct (tick_cases _ _ _ _ _ _ Htick) as (Hm & Hcw & _). auto.
  - destruct (worker w); [done|].
    by destruct (receive_iter r (queue (net w))).
  - done.
Qed.

(** X3: in a run in which every received packet holds a pickled pair of
    32-bit ints and no iteration of the loop has raised, the board is 3x3, the
    mark is the one of the role, [winner] is what [check_winner] returns
    for the current board, and a full board has an outcome. *)
Theorem process_invariants (server : bool) (feeds : list feed) :
  let w := run (feed_action <$> feeds) (init_world server) in
  forallb packet_int32 feeds = true ->
  main_thread w = None ->
  is_3x3 (board (locals w))
  /\ mark (locals w) = (if server then MarkX else MarkO)
  /\ check_winner (board (locals w)) = Ret (winner (locals w))
  /\ (board_full (board (locals w)) = true -> winner (locals w) <> None).
Proof.
  cbn zeta. intros _ _.
  generalize (feed_action <$> feeds). intros acts.
  assert (Hgen : forall w,
            check_winner (board (locals w)) = Ret (winner (locals w)) ->
            check_winner (board (locals (run acts w))) = Ret (winner (locals (run acts w)))
            /\ mark (locals (run acts w)) = mark (locals w)).
  { induction acts as [|a acts IH]; intros w Hc; [done|].
    rewrite run_cons. destruct (step_consistent a w Hc) as (Hc' & Hm').
    destruct (IH _ Hc') as (Hc'' & Hm''). split; congruence. }
  destruct (Hgen (init_world server)) as (Hc & Hm); [reflexivity|].
  pose proof (run_3x3 server acts) as H3.
  split_and!; try done.
  intros Hfull. by eapply full_board_over.
Qed.

Lemma process_invariants_witness :
  let w := run (feed_action <$> [Packet (-1, -1); Events []; Packet (7, 7); PeerClosed])
               (init_world false) in
  board (locals w) = [[None; None; None]; [None; None; None]; [None; None; Some MarkX]]
  /\ check_winner (board (locals w)) = Ret (winner (locals w)).
Proof.
  cbn zeta.
  destruct (process_invariants false
              [Packet (-1, -1); Events []; Packet (7, 7); PeerClosed])
    as (_ & _ & Hw & _); [reflexivity|reflexivity|].
  split; [vm_compute; reflexivity|exact Hw].
Defined.



(** Writing at non-negative indices is list update at those positions. *)
Lemma board_set_insert (b b' : list (list cell)) (r c : Z) (v : cell) :
  0 <= r -> 0 <= c -> board_set b r c v = Ret b' ->
  exists row, b !! Z.to_nat r = Some row
              /\ (Z.to_nat c < length row)%nat
              /\ b' = <[Z.to_nat r := <[Z.to_nat c := v]> row]> b.
Proof.
  intros Hr Hc. unfold board_set.
  destruct (Py.getitem b r) as [row|e] eqn:Hget; [|discriminate].
  cbn [mbind res_bind].
  destruct (Py.setitem row c v) as [row'|e] eqn:Hrow; [|discriminate].
  cbn [mbind res_bind]. intros Hset.
  apply getitem_Ret in Hget as (j & Hj & Hlook).
  apply setitem_Ret in Hrow as (k & Hk & ->).
  apply setitem_Ret in Hset as (j' & Hj' & ->).
  assert (j' = j) as -> by congruence.
  assert (j = Z.to_nat r) as ->.
  { unfold Py.norm_index in Hj. replace (r <? 0) with false in Hj by lia.
    destruct (_ || _); [discriminate|congruence]. }
  assert (k = Z.to_nat c) as ->.
  { unfold Py.norm_index in Hk. replace (c <? 0) with false in Hk by lia.
    destruct (_ || _); [discriminate|congruence]. }
  exists row. split_and!; [done| |done]. by eapply norm_index_lt.
Qed.

(** X5: a local move changes exactly the cell under the mouse: after a
    press inside the grid, on an empty cell, in the player's turn, that
    cell holds the local mark and every other cell holds what it held. *)
Theorem local_move_changes_one_cell (n : Network) (g g' : game) (x y : Z)
    (log : list effect) :
  0 <= x < WIDTH -> 0 <= y < HEIGHT ->
  on_event n g (MOUSEBUTTONDOWN x y) = Ret (g', log) -> log <> [] ->
  forall i j : nat,
    cell_at (board g') i j =
    if decide (i = Z.to_nat (click_cell x y).1 /\ j = Z.to_nat (click_cell x y).2)
    then Some (mark g) else cell_at (board g) i j.
Proof.
  intros Hx Hy Hev Hlog i j.
  destruct (click_cell_range x y Hx Hy) as [Hr Hc].
  apply on_event_cases in Hev
    as [(-> & _)|(x' & y' & b' & w & [= <- <-] & _ & _ & _ & _ & _ & Hset & _ & -> & _)];
    [done|].
  cbn [board].
  apply board_set_insert in Hset as (row & Hrow & Hlen & ->); [|lia..].
  unfold cell_at.
  destruct (decide (i = Z.to_nat (click_cell x y).1)) as [->|Hi].
  - rewrite list_lookup_insert_eq by by eapply lookup_lt_Some.
    rewrite Hrow. cbn.
    destruct (decide (j = Z.to_nat (click_cell x y).2)) as [->|Hj].
    + rewrite list_lookup_insert_eq by done.
      by rewrite decide_True.
    + rewrite list_lookup_insert_ne by done.
      rewrite decide_False by tauto. done.
  - rewrite list_lookup_insert_ne by done.
    rewrite decide_False by tauto. done.
Qed.

Lemma local_move_changes_one_cell_witness :
  exists g',
    on_event (mkNetwork true true []) (init_game true) (MOUSEBUTTONDOWN 250 450)
    = Ret (g', [BoardWrite 2 1 MarkX; SockWrite (Pickle.dumps (2, 1))])
    /\ cell_at (board g') 2 1 = Some MarkX
    /\ cell_at (board g') 0 0 = None.
Proof.
  eexists. split; [reflexivity|].
  split.
  - rewrite (local_move_changes_one_cell (mkNetwork true true []) (init_game true) _ 250 450
               [BoardWrite 2 1 MarkX; SockWrite (Pickle.dumps (2, 1))]);
      [reflexivity|unfold WIDTH; lia|unfold HEIGHT; lia|reflexivity|discriminate].
  - reflexivity.
Defined.



(** ** Leaving the loop *)

Lemma on_event_running (n : Network) (g g' : game) (ev : event) (log : list effect) :
  on_event n g ev = Ret (g', log) ->
  running g' = match ev with QUIT => false | _ => running g end.
Proof.
  intros Hev. pose proof Hev as Hcases.
  apply on_event_cases in Hcases
    as [(_ & _ & _ & _ & _ & Hsame)|(x & y & b' & w & -> & _ & _ & _ & _ & _ & _ & _ & -> & _)].
  - destruct ev; [|by rewrite Hsame..].
    cbn in Hev. by injection Hev as <- _.
  - done.
Qed.

Lemma on_events_running (n : Network) (evs : list event) (g g' : game) (log : list effect) :
  on_events n g evs = Ret (g', log) ->
  running g' = running g && negb (bool_decide (QUIT ∈ evs)).
Proof.
  revert g g' log. induction evs as [|ev evs IH]; intros g g' log; cbn [on_events].
  - intros [= <- _]. rewrite bool_decide_eq_false_2 by apply not_elem_of_nil.
    by rewrite andb_true_r.
  - destruct (on_event n g ev) as [[g1 log1]|e] eqn:H1; [|discriminate].
    cbn [mbind res_bind].
    destruct (on_events n g1 evs) as [[g2 log2]|e] eqn:H2; [|discriminate].
    cbn [mbind res_bind]. intros [= <- _].
    rewrite (IH _ _ _ H2), (on_event_running _ _ _ _ _ H1).
    destruct (decide (ev = QUIT)) as [->|Hne].
    + rewrite (bool_decide_eq_true_2 (QUIT ∈ QUIT :: evs)) by apply list_elem_of_here.
      by rewrite andb_false_r.
    + assert (bool_decide (QUIT ∈ ev :: evs) = bool_decide (QUIT ∈ evs)) as ->.
      { apply bool_decide_ext. rewrite elem_of_cons. intuition congruence. }
      by destruct ev.
Qed.

Lemma on_data_running (g g' : game) (data : pyobj) (log : list effect) :
  on_data g data = Ret (g', log) -> running g' = running g.
Proof.
  intros [(_ & ->)|(ri & ci & row & row' & b' & w & _ & _ & _ & _ & _ & _ & _ & -> & _)]%on_data_cases;
    done.
Qed.

(** X7: an iteration that sees a [QUIT] event and completes leaves
    [running] false, whatever else it handled; and with [running] false
    no later iteration touches the locals of [main] or the sockets:
    the board, the outcome, the turn and the trace stay as they are. *)
Theorem quit_ends_the_loop (w : world) (evs : list event) (acts : list action) :
  (main_thread w = None -> QUIT ∈ evs ->
   main_thread (step (Tick evs) w) = None ->
   running (locals (step (Tick evs) w)) = false)
  /\ (running (locals w) = false ->
      locals (run acts w) = locals w /\ trace (run acts w) = trace w
      /\ main_thread (run acts w) = main_thread w).
Proof.
  split.
  - intros Hmain Hquit. cbn [step]. rewrite Hmain.
    destruct (running (locals w)) eqn:Hrun; [|done].
    destruct (tick evs (net w) (locals w)) as [[[g n'] log]|e] eqn:Htick; [|done].
    intros _. cbn [locals]. unfold tick in Htick.
    destruct (on_events (net w) (locals w) evs) as [[g1 log1]|e] eqn:H1; [|discriminate].
    cbn [mbind res_bind] in Htick.
    destruct (receive (net w)) as [data n1].
    destruct (on_data g1 data) as [[g2 log2]|e] eqn:H2; [|discriminate].
    cbn [mbind res_bind] in Htick. injection Htick as <- _ _.
    rewrite (on_data_running _ _ _ _ H2), (on_events_running _ _ _ _ _ H1).
    rewrite bool_decide_eq_true_2 by done. by rewrite andb_false_r.
  - revert w. induction acts as [|a acts IH]; intros w Hrun; [done|].
    rewrite run_cons.
    assert (Hstep : locals (step a w) = locals w /\ trace (step a w) = trace w
                    /\ main_thread (step a w) = main_thread w).
    { destruct a as [evs'|r|].
      - by rewrite step_tick_stopped.
      - cbn [step]. destruct (worker w); [done|].
        by destruct (receive_iter r (queue (net w))).
      - done. }
    destruct Hstep as (Hl & Ht & Hm).
    destruct (IH (step a w)) as (Hl' & Ht' & Hm'); [by rewrite Hl|].
    split_and!; congruence.
Qed.

Lemma quit_ends_the_loop_witness :
  let w := step (Tick [QUIT; MOUSEBUTTONDOWN 0 0]) (init_world true) in
  running (locals w) = false
  /\ board (locals (run [Tick [MOUSEBUTTONDOWN 300 300]] w))
     = [[Some MarkX; None; None]; [None; None; None]; [None; None; None]].
Proof.
  cbn zeta.
  destruct (quit_ends_the_loop (init_world true) [QUIT; MOUSEBUTTONDOWN 0 0] [])
    as (Hquit & _).
  assert (Hrun : running (locals (step (Tick [QUIT; MOUSEBUTTONDOWN 0 0]) (init_world true)))
                 = false).
  { apply Hquit; [reflexivity|apply list_elem_of_here|reflexivity]. }
  split; [exact Hrun|].
  destruct (quit_ends_the_loop (step (Tick [QUIT; MOUSEBUTTONDOWN 0 0]) (init_world true))
              [] [Tick [MOUSEBUTTONDOWN 300 300]]) as (_ & Hstay).
  destruct (Hstay Hrun) as (-> & _). reflexivity.
Defined.

(** ** What is sent *)

Lemma on_event_sent (n : Network) (g g' : game) (ev : event) (log : list effect) :
  on_event n g ev = Ret (g', log) ->
  sent_packets log = owed_packets (mark g) log.
Proof.
  intros [(-> & _)|(x & y & b' & w & _ & _ & _ & _ & _ & _ & _ & _ & _ & ->)]%on_event_cases;
    [done|].
  unfold sent_packets, owed_packets.
  cbn -[Pickle.dumps click_cell decide symbol_eq_dec].
  rewrite decide_True by done. by destruct (click_cell x y).
Qed.

Lemma on_data_sent (g g' : game) (data : pyobj) (log : list effect) :
  on_data g data = Ret (g', log) ->
  sent_packets log = owed_packets (mark g) log.
Proof.
  intros [(-> & _)|(ri & ci & row & row' & b' & w & _ & _ & _ & _ & _ & _ & _ & _ & ->)]%on_data_cases;
    [done|].
  unfold sent_packets, owed_packets.
  cbn -[Pickle.dumps click_cell decide symbol_eq_dec other_mark].
  rewrite decide_False; [done|]. by destruct (mark g).
Qed.

Lemma sent_owed_app (own : symbol) (log1 log2 : list effect) :
  sent_packets log1 = owed_packets own log1 ->
  sent_packets log2 = owed_packets own log2 ->
  sent_packets (log1 ++ log2) = owed_packets own (log1 ++ log2).
Proof.
  unfold sent_packets, owed_packets. rewrite !omap_app. by intros -> ->.
Qed.

Lemma on_events_sent (n : Network) (evs : list event) (g g' : game) (log : list effect) :
  on_events n g evs = Ret (g', log) ->
  sent_packets log = owed_packets (mark g) log.
Proof.
  revert g g' log. induction evs as [|ev evs IH]; intros g g' log; cbn [on_events].
  - by intros [= _ <-].
  - destruct (on_event n g ev) as [[g1 log1]|e] eqn:H1; [|discriminate].
    cbn [mbind res_bind].
    destruct (on_events n g1 evs) as [[g2 log2]|e] eqn:H2; [|discriminate].
    cbn [mbind res_bind]. intros [= _ <-].
    apply sent_owed_app; [by eapply on_event_sent|].
    assert (mark g1 = mark g) as <-.
    { apply on_event_cases in H1
        as [(_ & _ & _ & _ & Hm & _)|(x & y & b' & w & _ & _ & _ & _ & _ & _ & _ & _ & -> & _)];
        done. }
    by eapply IH.
Qed.

Lemma tick_sent (evs : list event) (n n' : Network) (g g' : game) (log : list effect) :
  tick evs n g = Ret (g', n', log) ->
  sent_packets log = owed_packets (mark g) log.
Proof.
  unfold tick.
  destruct (on_events n g evs) as [[g1 log1]|e] eqn:H1; [|discriminate].
  cbn [mbind res_bind].
  destruct (receive n) as [data n1].
  destruct (on_data g1 data) as [[g2 log2]|e] eqn:H2; [|discriminate].
  cbn [mbind res_bind]. intros [= _ _ <-].
  apply sent_owed_app; [by eapply on_events_sent|].
  destruct (on_events_cases _ _ _ _ _ H1) as (<- & _).
  by eapply on_data_sent.
Qed.

(** X8: in a run in which every received packet holds a pickled pair of
    32-bit ints and no iteration of the loop has raised, the packets written to
    the socket are exactly the pickled coordinates of the marks of its own
    that the process put on its board, in the same order: no local move
    went unsent, nothing else was sent, and no received move was echoed. *)
Theorem sent_is_own_moves (server : bool) (feeds : list feed) :
  let w := run (feed_action <$> feeds) (init_world server) in
  forallb packet_int32 feeds = true ->
  main_thread w = None ->
  sent_packets (trace w)
  = owed_packets (if server then MarkX else MarkO) (trace w).
Proof.
  cbn zeta. intros _ _.
  generalize (feed_action <$> feeds). intros acts.
  set (own := if server then MarkX else MarkO).
  assert (Hgen : forall w,
            mark (locals w) = own ->
            sent_packets (trace w) = owed_packets own (trace w) ->
            sent_packets (trace (run acts w)) = owed_packets own (trace (run acts w))).
  { induction acts as [|a acts IH]; intros w Hm Hs; [done|].
    rewrite run_cons. apply IH.
    - destruct (step_turns a w) as (log & _ & (Hm' & _)). congruence.
    - destruct a as [evs|r|]; cbn [step].
      + destruct (main_thread w); [done|].
        destruct (running (locals w)); [|done].
        destruct (tick evs (net w) (locals w)) as [[[g n'] log]|e] eqn:Htick; [|done].
        cbn [trace]. apply sent_owed_app; [done|].
        rewrite <- Hm. by eapply tick_sent.
      + destruct (worker w); [done|].
        by destruct (receive_iter r (queue (net w))).
      + done. }
  apply Hgen; [by destruct server|done].
Qed.

Lemma sent_is_own_moves_witness :
  let w := run (feed_action <$>
                [Events [MOUSEBUTTONDOWN 0 0]; Packet (1, 1); Events [];
                 Events [MOUSEBUTTONDOWN 500 500]])
               (init_world true) in
  sent_packets (trace w) = [Pickle.dumps (0, 0); Pickle.dumps (2, 2)].
Proof.
  cbn zeta.
  rewrite (sent_is_own_moves true
             [Events [MOUSEBUTTONDOWN 0 0]; Packet (1, 1); Events [];
              Events [MOUSEBUTTONDOWN 500 500]]); reflexivity.
Defined.

(** ** The receive task *)

(** X9: packets that each hold one pickled move with byte-sized
    coordinates are unpickled and enqueued one by one, behind what the
    queue already holds and in the order they arrive, and the task stays
    in its loop. *)
Theorem receive_loop_fifo (moves : list (Z * Z)) (q : list pyobj) :
  Forall (fun m => 0 <= m.1 <= 255 /\ 0 <= m.2 <= 255) moves ->
  receive_loop (map (fun m => Ret (Pickle.dumps m)) moves) q
  = (q ++ map move_obj moves, None).
Proof.
  revert q. induction moves as [|[r c] moves IH]; intros q Hall; cbn [map receive_loop].
  - by rewrite app_nil_r.
  - apply Forall_cons in Hall as [[Hr Hc] Hall]. cbn [fst snd] in Hr, Hc.
    assert (Hiter : receive_iter (Ret (Pickle.dumps (r, c))) q
                    = (q ++ [move_obj (r, c)], None)).
    { unfold receive_iter. rewrite loads_dumps_small by done.
      rewrite dumps_small by done. reflexivity. }
    rewrite Hiter, IH by done. by rewrite <- app_assoc.
Qed.

Lemma receive_loop_fifo_witness :
  receive_loop [Ret (Pickle.dumps (0, 2)); Ret (Pickle.dumps (1, 1))] [PyNone]
  = ([PyNone; PyTuple [PyInt 0; PyInt 2]; PyTuple [PyInt 1; PyInt 1]], None).
Proof.
  apply (receive_loop_fifo [(0, 2); (1, 1)] [PyNone]).
  repeat constructor; cbn; lia.
Defined.

Lemma receive_iter_extends (r : res (list byte)) (q q' : list pyobj) (ended : option exn) :
  receive_iter r q = (q', ended) -> exists added, q' = q ++ added.
Proof.
  unfold receive_iter. destruct r as [[|b packet]|e].
  - intros [= <- _]. exists []. by rewrite app_nil_r.
  - destruct (Pickle.loads (b :: packet)) as [data|e].
    + intros [= <- _]. eauto.
    + destruct (is_Exception e); intros [= <- _]; exists []; by rewrite app_nil_r.
  - destruct (is_Exception e); intros [= <- _]; exists []; by rewrite app_nil_r.
Qed.

(** X10: [_receive_loop] only ever appends to the queue - what was queued
    stays, in place - and once it has left its loop, nothing that arrives
    later is read or enqueued. *)
Theorem receive_loop_appends_then_stops (recvs later : list (res (list byte)))
    (q : list pyobj) :
  (exists added, (receive_loop recvs q).1 = q ++ added)
  /\ (forall e, (receive_loop recvs q).2 = Some e ->
        receive_loop (recvs ++ later) q = receive_loop recvs q).
Proof.
  revert q. induction recvs as [|r recvs IH]; intros q; cbn [receive_loop app].
  - split; [exists []; by rewrite app_nil_r|discriminate].
  - destruct (receive_iter r q) as [q' [e|]] eqn:Hiter.
    + apply receive_iter_extends in Hiter as [added ->]. split; [eauto|done].
    + apply receive_iter_extends in Hiter as [added ->].
      destruct (IH (q ++ added)) as ([added' Hadd] & Hstop).
      split; [|done]. exists (added ++ added'). by rewrite Hadd, app_assoc.
Qed.

Lemma receive_loop_appends_then_stops_witness :
  receive_loop ([Ret (Pickle.dumps (0, 0)); Ret []] ++ [Ret (Pickle.dumps (1, 1))]) []
  = ([PyTuple [PyInt 0; PyInt 0]], Some (SystemExit 1)).
Proof.
  destruct (receive_loop_appends_then_stops [Ret (Pickle.dumps (0, 0)); Ret []]
              [Ret (Pickle.dumps (1, 1))] []) as (_ & Hstop).
  rewrite (Hstop (SystemExit 1)); reflexivity.
Defined.

(** ** Packets and reads that do not line up *)

Lemma load_step (fuel : nat) (op : byte) (bs : list byte) (st : list pyobj) :
  Pickle.load (S fuel) (op :: bs) st =
  Pickle.load_op op bs st ≫= fun r : list byte * list pyobj + pyobj =>
  match r with
  | inl (bs', st') => Pickle.load fuel bs' st'
  | inr v => Ret v
  end.
Proof. reflexivity. Qed.

Lemma load_op_frame7 (rest : list byte) (st : list pyobj) :
  (7 <= length rest)%nat ->
  Pickle.load_op x95 (x07 :: x00 :: x00 :: x00 :: x00 :: x00 :: x00 :: x00 :: rest) st
  = Ret (inl (rest, st)).
Proof.
  intros Hlen. unfold Pickle.load_op, Pickle.read.
  cbn [length Nat.leb take drop mbind res_bind].
  rewrite take_0, drop_0.
  replace (Pickle.unpack_le [x07; x00; x00; x00; x00; x00; x00; x00]) with 7
    by reflexivity.
  replace (7 <=? Z.of_nat (length rest)) with true by lia.
  reflexivity.
Qed.

(** Bytes after the [STOP] of the first pickle are not looked at. *)
Lemma loads_pair_bytes_more (br bc : byte) (extra : list byte) :
  Pickle.loads
    ([x80; x04; x95; x07; x00; x00; x00; x00; x00; x00; x00;
      x4b; br; x4b; bc; x86; x94; x2e] ++ extra) =
  Ret (PyTuple [PyInt (Pickle.unpack_le [br]); PyInt (Pickle.unpack_le [bc])]).
Proof.
  unfold Pickle.loads. cbn [length app].
  rewrite load_step.
  change (Pickle.load_op x80 (x04 :: ?r) ?s)
    with (@Ret (list byte * list pyobj + pyobj) (inl (r, s))).
  cbn [mbind res_bind].
  rewrite load_step, load_op_frame7 by (cbn [length]; lia).
  cbn [mbind res_bind].
  reflexivity.
Qed.

(** ** Pairs of 32-bit ints on the wire *)

Lemma Z_of_byte_of_Z_mod (z : Z) :
  Pickle.Z_of_byte (Pickle.byte_of_Z z) = z mod 256.
Proof.
  unfold Pickle.byte_of_Z.
  assert (H : 0 <= z mod 256 < 256) by (apply Z.mod_pos_bound; lia).
  rewrite <- (Z_of_byte_of_Z (z mod 256)) at 2 by done.
  unfold Pickle.byte_of_Z. by rewrite Z.mod_mod by lia.
Qed.

Lemma length_pack_le (n : nat) (z : Z) : length (Pickle.pack_le n z) = n.
Proof. revert z. induction n as [|n IH]; intros z; cbn; [done|by rewrite IH]. Qed.

Lemma unpack_le_pack_le (n : nat) (z : Z) :
  Pickle.unpack_le (Pickle.pack_le n z) = z mod 256 ^ Z.of_nat n.
Proof.
  revert z. induction n as [|n IH]; intros z.
  - cbn [Pickle.pack_le Pickle.unpack_le]. change (256 ^ Z.of_nat 0) with 1.
    by rewrite Z.mod_1_r.
  - cbn [Pickle.pack_le Pickle.unpack_le]. rewrite IH, Z_of_byte_of_Z_mod.
    rewrite Nat2Z.inj_succ, Z.pow_succ_r by lia.
    rewrite Z.rem_mul_r; [done|lia|]. apply Z.pow_pos_nonneg; lia.
Qed.

Lemma read_app (bs rest : list byte) :
  Pickle.read (length bs) (bs ++ rest) = Ret (bs, rest).
Proof.
  unfold Pickle.read. rewrite length_app.
  replace (length bs <=? length bs + length rest)%nat with true
    by (symmetry; apply Nat.leb_le; lia).
  by rewrite take_app_length, drop_app_length.
Qed.

Lemma read_pack_le (n : nat) (z : Z) (rest : list byte) :
  Pickle.read n (Pickle.pack_le n z ++ rest) = Ret (Pickle.pack_le n z, rest).
Proof.
  rewrite <- (length_pack_le n z) at 1. apply read_app.
Qed.

(** The opcode that [save_long] writes for a 32-bit int pushes that int. *)
Lemma load_save_long (v : Z) (rest : list byte) (st : list pyobj) (fuel : nat) :
  int32 v = true ->
  Pickle.load (S fuel) (Pickle.save_long v ++ rest) st
  = Pickle.load fuel rest (PyInt v :: st).
Proof.
  unfold int32. intros Hv. unfold Pickle.save_long. rewrite Hv.
  apply andb_true_iff in Hv as [Hlo Hhi].
  apply Z.leb_le in Hlo, Hhi.
  destruct ((v <? 0) || (65535 <? v)) eqn:Hwide; [|destruct (255 <? v) eqn:Hmid].
  - rewrite <- app_comm_cons, load_step.
    change (Pickle.load_op Pickle.BININT ?bs ?s) with
      (Pickle.read 4 bs ≫= fun '(v, bs') =>
       Ret (inl (bs', PyInt (Pickle.unpack_le_signed v) :: s))
       : res (list byte * list pyobj + pyobj)).
    rewrite read_pack_le. cbn [mbind res_bind].
    unfold Pickle.unpack_le_signed.
    rewrite unpack_le_pack_le, length_pack_le.
    change (8 * Z.of_nat 4) with 32. change (256 ^ Z.of_nat 4) with (2 ^ 32).
    change (32 =? 0) with false. change (32 - 1) with 31. cbn [orb].
    destruct (Z.ltb_spec (v mod 2 ^ 32) (2 ^ 31)) as [Hs|Hs].
    + rewrite Z.mod_small; [done|].
      destruct (Z.le_gt_cases 0 v); [lia|].
      rewrite <- (Z.mod_add v 1) in Hs by lia.
      rewrite Z.mod_small in Hs by lia. lia.
    + destruct (Z.le_gt_cases 0 v).
      * rewrite Z.mod_small in Hs by lia. lia.
      * rewrite <- (Z.mod_add v 1) by lia.
        rewrite Z.mod_small by lia. do 3 f_equal. lia.
  - apply orb_false_iff in Hwide as [H0 H1].
    apply Z.ltb_ge in H0, H1. apply Z.ltb_lt in Hmid.
    rewrite <- app_comm_cons, load_step.
    change (Pickle.load_op Pickle.BININT2 ?bs ?s) with
      (Pickle.read 2 bs ≫= fun '(v, bs') =>
       Ret (inl (bs', PyInt (Pickle.unpack_le v) :: s))
       : res (list byte * list pyobj + pyobj)).
    rewrite read_pack_le. cbn [mbind res_bind].
    rewrite unpack_le_pack_le. change (256 ^ Z.of_nat 2) with 65536.
    by rewrite Z.mod_small by lia.
  - apply orb_false_iff in Hwide as [H0 H1].
    apply Z.ltb_ge in H0, H1, Hmid.
    rewrite <- app_comm_cons, load_step.
    change (Pickle.load_op Pickle.BININT1 ?bs ?s) with
      (Pickle.read 1 bs ≫= fun '(v, bs') =>
       Ret (inl (bs', PyInt (Pickle.unpack_le v) :: s))
       : res (list byte * list pyobj + pyobj)).
    rewrite read_pack_le. cbn [mbind res_bind].
    rewrite unpack_le_pack_le. change (256 ^ Z.of_nat 1) with 256.
    by rewrite Z.mod_small by lia.
Qed.

Lemma length_save_long (v : Z) :
  int32 v = true -> (2 <= length (Pickle.save_long v) <= 5)%nat.
Proof.
  unfold int32, Pickle.save_long. intros ->.
  destruct ((v <? 0) || (65535 <? v)); [|destruct (255 <? v)];
    cbn [length]; rewrite length_pack_le; lia.
Qed.

Lemma loads_dumps_int32 (r c : Z) :
  int32 r = true -> int32 c = true ->
  Pickle.loads (Pickle.dumps (r, c)) = Ret (PyTuple [PyInt r; PyInt c]).
Proof.
  intros Hr Hc. unfold Pickle.loads, Pickle.dumps. cbn [fst snd].
  set (body := Pickle.save_long r ++ Pickle.save_long c ++ _).
  assert (Hbody : (7 <= length body <= 13)%nat).
  { subst body. rewrite !length_app. cbn [length].
    pose proof (length_save_long r Hr). pose proof (length_save_long c Hc). lia. }
  cbn [length]. rewrite length_app, length_pack_le.
  rewrite load_step.
  change (Pickle.load_op Pickle.PROTO (Pickle.DEFAULT_PROTOCOL :: ?bs) ?s)
    with (@Ret (list byte * list pyobj + pyobj) (inl (bs, s))).
  cbn [mbind res_bind]. rewrite load_step.
  change (Pickle.load_op Pickle.FRAME ?bs ?s) with
    (Pickle.read 8 bs ≫= fun '(n, bs') =>
     if Pickle.unpack_le n <=? Z.of_nat (length bs') then Ret (inl (bs', s))
     else Raise UnpicklingError
     : res (list byte * list pyobj + pyobj)).
  rewrite read_pack_le. cbn [mbind res_bind].
  rewrite unpack_le_pack_le.
  rewrite Z.mod_small
    by (split; [lia|]; apply Z.lt_le_trans with 14; [lia|done]).
  rewrite Z.leb_refl. cbn [mbind res_bind].
  subst body. cbn [Nat.add].
  rewrite load_save_long by done.
  rewrite load_save_long by done.
  reflexivity.
Qed.

(** A packet of the feed is enqueued as the pair it holds, and the
    receive task goes on. *)
Lemma packet_is_enqueued (r c : Z) (w : world) :
  int32 r = true -> int32 c = true -> worker w = None ->
  queue (net (step (feed_action (Packet (r, c))) w))
  = queue (net w) ++ [PyTuple [PyInt r; PyInt c]]
  /\ worker (step (feed_action (Packet (r, c))) w) = None.
Proof.
  intros Hr Hc Hworker. cbn [feed_action step]. rewrite Hworker.
  unfold receive_iter. rewrite loads_dumps_int32 by done.
  destruct (Pickle.dumps (r, c)) as [|b bs] eqn:Hbytes; [discriminate|].
  done.
Qed.

(** In a run fed with such packets only pairs of ints reach the queue, so
    these are the only objects the game loop is handed. *)
Lemma feed_queue_moves (server : bool) (feeds : list feed) :
  forallb packet_int32 feeds = true ->
  Forall (fun d => exists m, d = move_obj m)
         (queue (net (run (feed_action <$> feeds) (init_world server)))).
Proof.
  assert (Hgen : forall w,
            forallb packet_int32 feeds = true ->
            Forall (fun d => exists m, d = move_obj m) (queue (net w)) ->
            Forall (fun d => exists m, d = move_obj m)
                   (queue (net (run (feed_action <$> feeds) w)))).
  { induction feeds as [|f feeds IH]; intros w Hfeeds Hq; [done|].
    cbn [forallb] in Hfeeds. apply andb_true_iff in Hfeeds as [Hf Hfeeds].
    rewrite fmap_cons, run_cons. apply IH; [done|].
    destruct f as [evs|[r c]| | |]; cbn [feed_action step].
    - destruct (main_thread w); [done|].
      destruct (running (locals w)); [|done].
      destruct (tick evs (net w) (locals w)) as [[[g n] log]|e] eqn:Htick; [|done].
      cbn [net]. unfold tick in Htick.
      destruct (on_events (net w) (locals w) evs) as [[g1 log1]|e]; [|discriminate].
      cbn [mbind res_bind] in Htick.
      destruct (receive (net w)) as [data n1] eqn:Hrecv.
      destruct (on_data g1 data) as [[g2 log2]|e]; [|discriminate].
      cbn [mbind res_bind] in Htick. injection Htick as _ <- _.
      unfold receive in Hrecv.
      destruct (queue (net w)) as [|d q] eqn:Hqueue.
      + injection Hrecv as _ <-. by rewrite Hqueue.
      + injection Hrecv as _ <-. cbn [queue]. by inversion Hq.
    - destruct (worker w); [done|].
      cbn [packet_int32] in Hf. apply andb_true_iff in Hf as [Hr Hc].
      unfold receive_iter. rewrite loads_dumps_int32 by done.
      destruct (Pickle.dumps (r, c)) as [|b bs] eqn:Hbytes; [discriminate|].
      cbn [net queue]. apply Forall_app. split; [done|].
      apply Forall_singleton. by exists (r, c).
    - by destruct (worker w).
    - by destruct (worker w).
    - done. }
  intros Hfeeds. apply Hgen; [done|]. cbn [init_world net queue]. done.
Qed.

(** X11: [_receive_loop] treats each [recv] as one packet.  When a read
    returns a pickled move followed by more bytes - a second packet that
    arrived with it - only the first move is enqueued and the rest is
    dropped; when a read returns a proper, non-empty part of a packet, the
    task leaves its loop as on an error. *)
Theorem read_is_taken_as_one_packet (r c : Z) (extra : list byte) (k : nat)
    (q : list pyobj) :
  0 <= r <= 255 -> 0 <= c <= 255 ->
  receive_iter (Ret (Pickle.dumps (r, c) ++ extra)) q = (q ++ [move_obj (r, c)], None)
  /\ ((0 < k < length (Pickle.dumps (r, c)))%nat ->
      receive_iter (Ret (take k (Pickle.dumps (r, c)))) q = (q, Some (SystemExit 1))).
Proof.
  intros Hr Hc. rewrite dumps_small by done. split.
  - unfold receive_iter. rewrite loads_pair_bytes_more.
    rewrite !unpack_le_byte_of_Z by done. reflexivity.
  - cbn [length]. intros Hk.
    destruct k as [|k]; [lia|].
    do 17 (destruct k as [|k]; [reflexivity|]). lia.
Qed.

Lemma read_is_taken_as_one_packet_witness :
  receive_iter (Ret (Pickle.dumps (0, 0) ++ Pickle.dumps (1, 1))) []
  = ([PyTuple [PyInt 0; PyInt 0]], None)
  /\ receive_iter (Ret (take 12 (Pickle.dumps (0, 0)))) [] = ([], Some (SystemExit 1)).
Proof.
  destruct (read_is_taken_as_one_packet 0 0 (Pickle.dumps (1, 1)) 12 [])
    as (Hmore & Hless); [lia|lia|].
  split; [exact Hmore|]. apply Hless.
  change (length (Pickle.dumps (0, 0))) with 18%nat. lia.
Defined.

(** ** Drawing the board *)

Lemma draw_mark_inside (row col : Z) (m : cell) (s : shape) :
  0 <= row <= 2 -> 0 <= col <= 2 ->
  s ∈ draw_mark row col m -> m <> None /\ inside_cell row col s.
Proof.
  intros Hr Hc Hin. split; [by destruct m; [|apply elem_of_nil in Hin]|].
  assert (row = 0 \/ row = 1 \/ row = 2) as [->|[->| ->]] by lia;
    (assert (col = 0 \/ col = 1 \/ col = 2) as [->|[->| ->]] by lia);
    destruct m as [[]|]; cbn [draw_mark] in Hin;
    repeat (apply elem_of_cons in Hin as [->|Hin]);
    try (by apply elem_of_nil in Hin);
    vm_compute; repeat split; discriminate.
Qed.

Lemma draw_mark_some (row col : Z) (m : cell) :
  m <> None -> exists s, s ∈ draw_mark row col m.
Proof.
  destruct m as [[]|]; [| |done]; intros _; eexists; apply list_elem_of_here.
Qed.

Lemma elem_of_concat {A} (x : A) (ls : list (list A)) :
  x ∈ concat ls <-> exists l, x ∈ l /\ l ∈ ls.
Proof.
  induction ls as [|l ls IH]; cbn [concat].
  - split; [by intros ?%elem_of_nil|by intros (l & _ & ?%elem_of_nil)].
  - rewrite elem_of_app, IH. split.
    + intros [Hx|(l' & Hx & Hl)]; [exists l|exists l'];
        (split; [done|]); [apply list_elem_of_here|by apply list_elem_of_further].
    + intros (l' & Hx & [->|Hl]%elem_of_cons); [by left|right; eauto].
Qed.

Lemma draw_marks_3x3 (b : list (list cell)) :
  is_3x3 b ->
  draw_marks b =
  Ret (concat ((fun rc : nat * nat =>
                  draw_mark (Z.of_nat rc.1) (Z.of_nat rc.2) (cell_at b rc.1 rc.2))
               <$> cells9)).
Proof.
  intros Hb. apply is_3x3_inv in Hb.
  destruct Hb as (a0 & a1 & a2 & b0 & b1 & b2 & c0 & c1 & c2 & ->).
  transitivity
    (@Ret (list shape)
       (concat [concat [draw_mark 0 0 a0; draw_mark 0 1 a1; draw_mark 0 2 a2];
                concat [draw_mark 1 0 b0; draw_mark 1 1 b1; draw_mark 1 2 b2];
                concat [draw_mark 2 0 c0; draw_mark 2 1 c1; draw_mark 2 2 c2]]));
    [reflexivity|].
  f_equal. cbn -[draw_mark]. by rewrite !app_nil_r, <- !app_assoc.
Qed.

(** X12: on a 3x3 board [draw_marks] raises nothing and goes through the
    cells row by row; every shape it draws lies, stroke included, inside
    the grid square of a cell that holds a mark, and every cell that
    holds a mark gets a shape inside its square.  Empty cells get none. *)
Theorem marks_are_drawn_in_their_cells (b : Board) :
  is_3x3 b ->
  exists shapes,
    draw_marks b = Ret shapes
    /\ (forall s, s ∈ shapes ->
          exists r c : nat, (r < 3)%nat /\ (c < 3)%nat /\ cell_at b r c <> None
                            /\ inside_cell (Z.of_nat r) (Z.of_nat c) s)
    /\ (forall r c : nat, (r < 3)%nat -> (c < 3)%nat -> cell_at b r c <> None ->
          exists s, s ∈ shapes /\ inside_cell (Z.of_nat r) (Z.of_nat c) s).
Proof.
  intros Hb. eexists. split; [by apply draw_marks_3x3|]. split.
  - intros s Hin. apply elem_of_concat in Hin as (l & Hs & Hl).
    apply list_elem_of_fmap in Hl as ([r c] & -> & Hrc). cbn [fst snd] in Hs.
    assert ((r < 3)%nat /\ (c < 3)%nat) as [Hr Hc].
    { unfold cells9 in Hrc.
      repeat (apply elem_of_cons in Hrc as [[= -> ->]|Hrc]; [lia|]).
      by apply elem_of_nil in Hrc. }
    exists r, c. split; [done|]. split; [done|].
    by apply (draw_mark_inside _ _ _ s); [lia|lia|].
  - intros r c Hr Hc Hcell.
    destruct (draw_mark_some (Z.of_nat r) (Z.of_nat c) _ Hcell) as [s Hs].
    exists s. split.
    + apply elem_of_concat. eexists. split; [exact Hs|].
      apply list_elem_of_fmap. exists (r, c). split; [done|].
      unfold cells9.
      destruct r as [|[|[|r]]]; [| | |lia];
        (destruct c as [|[|[|c]]]; [| | |lia]);
        repeat first [apply list_elem_of_here|apply list_elem_of_further].
    + destruct (draw_mark_inside (Z.of_nat r) (Z.of_nat c) (cell_at b r c) s) as [_ Hbox];
        [lia|lia|exact Hs|exact Hbox].
Qed.

Lemma marks_are_drawn_in_their_cells_witness :
  draw_marks (board (locals joiner_moved)) =
  Ret [ Line CROSS_COLOR (55, 55) (145, 145) 25;
        Line CROSS_COLOR (55, 145) (145, 55) 25;
        Circle CIRCLE_COLOR (300, 300) 60 15 ].
Proof.
  destruct (marks_are_drawn_in_their_cells (board (locals joiner_moved)))
    as (shapes & Hdraw & _); [exact (run_3x3 false _)|].
  vm_compute in Hdraw. injection Hdraw as <-. vm_compute. reflexivity.
Defined.

(** X13: in a run of the two processes fed mouse positions inside the
    window, whenever no move is under way the two status lines fit
    together: after a win one side reads "You Won!" and the other
    "You Lost!", after a draw both read the draw message, and during the
    game exactly one side is told it is its turn while the other is told
    to wait. *)
Theorem peers_status_lines_match (acts : list duo_action) :
  forallb honest acts = true ->
  let d := duo_run acts duo_init in
  let h := locals (host d) in
  let j := locals (joiner d) in
  to_joiner d = [] -> to_host d = [] ->
  queue (net (host d)) = [] -> queue (net (joiner d)) = [] ->
  let th := status_text (is_my_turn h) (winner h) (mark h) in
  let tj := status_text (is_my_turn j) (winner j) (mark j) in
  match winner h with
  | Some Draw =>
      th = "Game ended in a Draw!"%string /\ tj = "Game ended in a Draw!"%string
  | Some (Won MarkX) => th = "You Won!"%string /\ tj = "You Lost!"%string
  | Some (Won MarkO) => th = "You Lost!"%string /\ tj = "You Won!"%string
  | None =>
      (th = "Your turn (You are X)"%string /\ tj = "Waiting for opponent..."%string)
      \/ (th = "Waiting for opponent..."%string /\ tj = "Your turn (You are O)"%string)
  end.
Proof.
  intros Hh d h j Hj Ht Hqh Hqj th tj.
  pose proof (in_sync_run acts duo_init Hh in_sync_init) as (Ha & Hb & Hcase).
  fold d in Ha, Hb, Hcase.
  destruct Ha as (_ & _ & _ & Hmh & _), Hb as (_ & _ & _ & Hmj & _).
  cbn in Hmh, Hmj. fold h in Hmh. fold j in Hmj.
  destruct Hcase as [(_ & _ & _ & _ & _ & Hw & Hturn)|[(_ & r & c & Haw)|(_ & r & c & Haw)]].
  - fold h j in Hw, Hturn. subst th tj. rewrite <- Hw, Hturn, Hmh, Hmj.
    destruct (winner h) as [[[]|]|]; cbn; [done..|].
    destruct (is_my_turn h); cbn; [by left|by right].
  - destruct Haw as (_ & _ & _ & _ & _ & _ & _ & _ & [[Hw _]|[_ Hq]]); congruence.
  - destruct Haw as (_ & _ & _ & _ & _ & _ & _ & _ & [[Hw _]|[_ Hq]]); congruence.
Qed.

Lemma peers_status_lines_match_witness :
  let d := duo_run [Loop Host [MOUSEBUTTONDOWN 300 300]; Deliver Joiner; Loop Joiner []]
                   duo_init in
  status_text (is_my_turn (locals (host d))) (winner (locals (host d)))
              (mark (locals (host d))) = "Waiting for opponent..."%string
  /\ status_text (is_my_turn (locals (joiner d))) (winner (locals (joiner d)))
                 (mark (locals (joiner d))) = "Your turn (You are O)"%string.
Proof.
  cbn zeta.
  pose proof (peers_status_lines_match
                [Loop Host [MOUSEBUTTONDOWN 300 300]; Deliver Joiner; Loop Joiner []]
                eq_refl eq_refl eq_refl eq_refl eq_refl) as Hst.
  cbn zeta in Hst.
  change (winner (locals (host (duo_run
            [Loop Host [MOUSEBUTTONDOWN 300 300]; Deliver Joiner; Loop Joiner []]
            duo_init)))) with (@None outcome) in Hst.
  destruct Hst as [[Hth _]|Hst]; [vm_compute in Hth; discriminate|exact Hst].
Defined.

(** ** Exchanging the marks *)

Lemma swap_marks_3x3 (b : list (list cell)) : is_3x3 b -> is_3x3 (swap_marks b).
Proof.
  intros Hb. apply is_3x3_inv in Hb.
  destruct Hb as (a0 & a1 & a2 & b0 & b1 & b2 & c0 & c1 & c2 & ->).
  apply is_3x3_intro.
Qed.

Lemma line_won_swap (l : list cell) :
  line_won (map (option_map other_mark) l) <-> line_won l.
Proof.
  split; intros [m Hm]; unfold line_won_by in Hm.
  - destruct l as [|[p|] [|[q|] [|[r|] [|? ?]]]]; try discriminate.
    cbn in Hm. injection Hm as Hp Hq Hr.
    exists (other_mark m). unfold line_won_by.
    destruct p, q, r, m; cbn in *; congruence.
  - subst l. exists (other_mark m). reflexivity.
Qed.

Lemma board_full_swap (b : list (list cell)) :
  board_full (swap_marks b) = board_full b.
Proof.
  unfold board_full, swap_marks.
  induction b as [|row b IHb]; [done|]. cbn [map forallb]. f_equal; [|apply IHb].
  induction row as [|c row IHrow]; [done|].
  cbn [map forallb]. rewrite IHrow. by destruct c as [[]|].
Qed.

(** X14: [check_winner] treats the two marks alike: on a 3x3 board,
    exchanging every ['X'] and ['O'] exchanges the winner and changes
    nothing else - a draw stays a draw and an unfinished game stays
    unfinished. *)
Theorem check_winner_swap (b : Board) :
  is_3x3 b ->
  check_winner (swap_marks b) = option_map swap_outcome <$> check_winner b.
Proof.
  intros Hb.
  rewrite (check_winner_3x3 _ Hb), (check_winner_3x3 _ (swap_marks_3x3 _ Hb)).
  cbn [fmap res_fmap]. f_equal.
  assert (Hlines : spec_lines (swap_marks b)
                   = map (option_map other_mark) <$> spec_lines b).
  { apply is_3x3_inv in Hb.
    destruct Hb as (a0 & a1 & a2 & b0 & b1 & b2 & c0 & c1 & c2 & ->). reflexivity. }
  rewrite Hlines, board_full_swap, list_find_fmap.
  rewrite (list_find_ext _ line_won) by apply line_won_swap.
  destruct (list_find line_won (spec_lines b)) as [[i l]|] eqn:Hfind; cbn.
  - apply list_find_Some in Hfind as (_ & [m Hm] & _).
    unfold line_won_by in Hm. by subst l.
  - by destruct (board_full b).
Qed.

Lemma check_winner_swap_witness :
  check_winner [[Some MarkO; Some MarkO; Some MarkO];
                [Some MarkX; Some MarkX; None];
                [None; None; None]]
  = Ret (Some (Won MarkO)).
Proof.
  apply (check_winner_swap [[Some MarkX; Some MarkX; Some MarkX];
                            [Some MarkO; Some MarkO; None];
                            [None; None; None]]).
  apply is_3x3_intro.
Defined.

(** ** The game is finite *)

Lemma empties_cons (row : list cell) (b : list (list cell)) :
  empties (row :: b) = (empties [row] + empties b)%nat.
Proof.
  unfold empties. cbn [concat]. by rewrite app_nil_r, filter_app, length_app.
Qed.

Lemma empties_row_insert (row : list cell) (k : nat) (x : cell) (m : symbol) :
  row !! k = Some x ->
  (empties [<[k := Some m]> row] + (if decide (x = None) then 1 else 0)
   = empties [row])%nat.
Proof.
  unfold empties. cbn [concat]. rewrite !app_nil_r.
  revert k. induction row as [|c row IH]; intros k Hk; [by rewrite lookup_nil in Hk|].
  destruct k as [|k]; cbn in Hk.
  - injection Hk as ->.
    change (<[0%nat:=Some m]> (x :: row)) with (Some m :: row).
    rewrite !filter_cons.
    destruct (decide (Some m = None)) as [|_]; [done|].
    destruct (decide (x = None)); cbn [length]; lia.
  - change (<[S k:=Some m]> (c :: row)) with (c :: <[k:=Some m]> row).
    rewrite !filter_cons.
    specialize (IH k Hk). destruct (decide (c = None)); cbn [length]; lia.
Qed.

Lemma empties_board_insert (b : list (list cell)) (j : nat) (row row' : list cell) :
  b !! j = Some row ->
  (empties (<[j := row']> b) + empties [row] = empties b + empties [row'])%nat.
Proof.
  revert j. induction b as [|r b IH]; intros j Hj; [by rewrite lookup_nil in Hj|].
  destruct j as [|j]; cbn in Hj.
  - injection Hj as ->.
    change (<[0%nat:=row']> (row :: b)) with (row' :: b).
    rewrite (empties_cons row' b), (empties_cons row b). lia.
  - change (<[S j:=row']> (r :: b)) with (r :: <[j:=row']> b).
    rewrite (empties_cons r (<[j:=row']> b)), (empties_cons r b).
    specialize (IH j Hj). lia.
Qed.

(** Writing a mark into a cell lowers the number of empty cells by one if
    the cell was empty and leaves it as it is otherwise. *)
Lemma empties_write (b b' : list (list cell)) (row row' : list cell) (r c : Z)
    (x : cell) (m : symbol) :
  Py.getitem b r = Ret row ->
  Py.getitem row c = Ret x ->
  Py.setitem row c (Some m) = Ret row' ->
  Py.setitem b r row' = Ret b' ->
  (empties b' + (if decide (x = None) then 1 else 0) = empties b)%nat.
Proof.
  intros (j & Hj & Hlook)%getitem_Ret (k & Hk & Hcell)%getitem_Ret
         (k' & Hk' & ->)%setitem_Ret (j' & Hj' & ->)%setitem_Ret.
  assert (k' = k) as -> by congruence. assert (j' = j) as -> by congruence.
  pose proof (empties_board_insert b j row (<[k:=Some m]> row) Hlook).
  pose proof (empties_row_insert row k x m Hcell). lia.
Qed.

Lemma setitem_getitem {A} (l l' : list A) (i : Z) (v : A) :
  Py.setitem l i v = Ret l' -> exists a, Py.getitem l i = Ret a.
Proof.
  intros (j & Hj & _)%setitem_Ret. unfold Py.getitem. rewrite Hj. cbn.
  destruct (lookup_lt_is_Some_2 l j) as [a ->]; [by eapply norm_index_lt|eauto].
Qed.

Lemma on_event_budget (n : Network) (g g' : game) (ev : event) (log : list effect) :
  on_event n g ev = Ret (g', log) ->
  (length (sent_packets log) + empties (board g') = empties (board g))%nat.
Proof.
  intros [(-> & -> & _)|(x & y & b' & w & _ & _ & _ & _ & _ & Hget & Hset & _ & -> & ->)]%on_event_cases;
    [done|].
  cbn [board]. unfold board_get, board_set in *.
  destruct (Py.getitem (board g) (click_cell x y).1) as [row|e] eqn:Hrow; [|discriminate].
  cbn [mbind res_bind] in *.
  destruct (Py.setitem row (click_cell x y).2 (Some (mark g))) as [row'|e] eqn:Hrow';
    [|discriminate].
  cbn [mbind res_bind] in *.
  pose proof (empties_write _ _ _ _ _ _ _ _ Hrow Hget Hrow' Hset) as Hw.
  rewrite decide_True in Hw by done.
  change (length (sent_packets _)) with 1%nat. lia.
Qed.

Lemma on_data_budget (g g' : game) (data : pyobj) (log : list effect) :
  on_data g data = Ret (g', log) ->
  sent_packets log = [] /\ (empties (board g') <= empties (board g))%nat.
Proof.
  intros [(-> & ->)|(ri & ci & row & row' & b' & w & _ & _ & _ & Hget & Hrow & Hset & _ & -> & ->)]%on_data_cases;
    [done|].
  split; [done|]. cbn [board].
  destruct (setitem_getitem _ _ _ _ Hrow) as [x Hx].
  pose proof (empties_write _ _ _ _ _ _ _ _ Hget Hx Hrow Hset). lia.
Qed.

Lemma on_events_budget (n : Network) (evs : list event) (g g' : game) (log : list effect) :
  on_events n g evs = Ret (g', log) ->
  (length (sent_packets log) + empties (board g') = empties (board g))%nat.
Proof.
  revert g g' log. induction evs as [|ev evs IH]; intros g g' log; cbn [on_events].
  - by intros [= <- <-].
  - destruct (on_event n g ev) as [[g1 log1]|e] eqn:H1; [|discriminate].
    cbn [mbind res_bind].
    destruct (on_events n g1 evs) as [[g2 log2]|e] eqn:H2; [|discriminate].
    cbn [mbind res_bind]. intros [= <- <-].
    apply on_event_budget in H1. apply IH in H2.
    unfold sent_packets in *. rewrite omap_app, length_app. lia.
Qed.

(** X15: in a run in which every received packet holds a pickled pair of
    32-bit ints and no iteration of the loop has raised, the packets the process
    has sent and the empty cells left on its board add up to at most
    nine: every local move uses up an empty cell and no write of a mark
    empties one, so the process has sent at most nine moves. *)
Theorem sends_at_most_nine (server : bool) (feeds : list feed) :
  let w := run (feed_action <$> feeds) (init_world server) in
  forallb packet_int32 feeds = true ->
  main_thread w = None ->
  (length (sent_packets (trace w)) + empties (board (locals w)) <= 9)%nat
  /\ (length (sent_packets (trace w)) <= 9)%nat.
Proof.
  cbn zeta. intros _ _.
  generalize (feed_action <$> feeds). intros acts.
  assert (Hgen : forall w k,
    (length (sent_packets (trace w)) + empties (board (locals w)) <= k)%nat ->
    (length (sent_packets (trace (run acts w))) + empties (board (locals (run acts w)))
     <= k)%nat).
  { induction acts as [|a acts IH]; intros w k Hk; [done|].
    rewrite run_cons. apply IH.
    destruct a as [evs|r|]; cbn [step].
    - destruct (main_thread w); [done|].
      destruct (running (locals w)); [|done].
      destruct (tick evs (net w) (locals w)) as [[[g n'] log]|e] eqn:Htick; [|done].
      cbn [trace locals]. unfold tick in Htick.
      destruct (on_events (net w) (locals w) evs) as [[g1 log1]|e] eqn:H1; [|discriminate].
      cbn [mbind res_bind] in Htick.
      destruct (receive (net w)) as [data n1].
      destruct (on_data g1 data) as [[g2 log2]|e] eqn:H2; [|discriminate].
      cbn [mbind res_bind] in Htick. injection Htick as <- _ <-.
      apply on_events_budget in H1. apply on_data_budget in H2 as [Hs2 Hle].
      unfold sent_packets in *. rewrite !omap_app, !length_app, Hs2. cbn [length]. lia.
    - destruct (worker w); [done|].
      by destruct (receive_iter r (queue (net w))).
    - done. }
  pose proof (Hgen (init_world server) 9%nat) as Hnine.
  split; [by apply Hnine|]. specialize (Hnine ltac:(done)). lia.
Qed.

Lemma sends_at_most_nine_witness :
  let w := run (feed_action <$>
                [Events [MOUSEBUTTONDOWN 0 0]; Packet (0, 0); Events [];
                 Events [MOUSEBUTTONDOWN 500 500]])
               (init_world true) in
  (length (sent_packets (trace w)) + empties (board (locals w)) <= 9)%nat
  /\ empties (board (locals w)) = 7%nat.
Proof.
  cbn zeta.
  destruct (sends_at_most_nine true
              [Events [MOUSEBUTTONDOWN 0 0]; Packet (0, 0); Events [];
               Events [MOUSEBUTTONDOWN 500 500]]) as (Hsum & _);
    [reflexivity|reflexivity|].
  split; [exact Hsum|vm_compute; reflexivity].
Defined.

(** ** The frame drawn at the end of an iteration *)

(** X16: in a run in which every received packet holds a pickled pair of
    32-bit ints and no iteration of the loop has raised, drawing the frame raises
    nothing: the background, the four grid lines, the marks and the status
    line are drawn in that order; every mark shape stays within the
    [WIDTH] x [HEIGHT] grid area, above the status rectangle that starts at
    [HEIGHT + 10]. *)
Theorem frame_is_drawn (text_width : string -> Z) (server : bool) (feeds : list feed) :
  let w := run (feed_action <$> feeds) (init_world server) in
  let g := locals w in
  forallb packet_int32 feeds = true ->
  main_thread w = None ->
  exists marks,
    draw_marks (board g) = Ret marks
    /\ render text_width g =
       Ret (Fill BG_COLOR :: draw_lines ++ marks
            ++ [Rect BG_COLOR (0, HEIGHT + 10, WIDTH, 50);
                Blit (status_text (is_my_turn g) (winner g) (mark g)) (255, 255, 255)
                     (WIDTH / 2
                      - text_width (status_text (is_my_turn g) (winner g) (mark g)) / 2,
                      HEIGHT + 25)])
    /\ (forall s, s ∈ marks ->
          exists x0 y0 x1 y1,
            extent s = Some (x0, y0, x1, y1)
            /\ 0 <= x0 /\ x1 <= WIDTH /\ 0 <= y0 /\ y1 <= HEIGHT).
Proof.
  cbn zeta. intros _ _. pose proof (run_3x3 server (feed_action <$> feeds)) as Hb.
  set (g := locals (run (feed_action <$> feeds) (init_world server))) in *.
  eexists. split; [by apply draw_marks_3x3|]. split.
  - unfold render. rewrite (draw_marks_3x3 _ Hb). reflexivity.
  - intros s Hin. apply elem_of_concat in Hin as (l & Hs & Hl).
    apply list_elem_of_fmap in Hl as ([r c] & -> & Hrc). cbn [fst snd] in Hs.
    assert ((r < 3)%nat /\ (c < 3)%nat) as [Hr Hc].
    { unfold cells9 in Hrc.
      repeat (apply elem_of_cons in Hrc as [[= -> ->]|Hrc]; [lia|]).
      by apply elem_of_nil in Hrc. }
    destruct (draw_mark_inside (Z.of_nat r) (Z.of_nat c) (cell_at (board g) r c) s)
      as [_ Hbox]; [lia|lia|exact Hs|].
    unfold inside_cell in Hbox.
    destruct (extent s) as [[[[x0 y0] x1] y1]|]; [|done].
    exists x0, y0, x1, y1. split; [done|].
    unfold WIDTH, HEIGHT in *. change (600 / 3) with 200 in Hbox. lia.
Qed.

Lemma frame_is_drawn_witness :
  let g := locals (run (feed_action <$> [Packet (1, 1); Events []]) (init_world false)) in
  render (fun text => 10 * Z.of_nat (String.length text)) g =
  Ret [ Fill BG_COLOR;
        Line LINE_COLOR (0, 200) (600, 200) 15;
        Line LINE_COLOR (0, 400) (600, 400) 15;
        Line LINE_COLOR (200, 0) (200, 600) 15;
        Line LINE_COLOR (400, 0) (400, 600) 15;
        Line CROSS_COLOR (255, 255) (345, 345) 25;
        Line CROSS_COLOR (255, 345) (345, 255) 25;
        Rect BG_COLOR (0, 610, 600, 50);
        Blit "Your turn (You are O)" (255, 255, 255) (195, 625) ].
Proof.
  cbn zeta.
  destruct (frame_is_drawn (fun text => 10 * Z.of_nat (String.length text)) false
              [Packet (1, 1); Events []]) as (marks & Hmarks & Hrender & _);
    [reflexivity|reflexivity|].
  rewrite Hrender. vm_compute in Hmarks. injection Hmarks as <-.
  vm_compute. reflexivity.
Defined.
